(** * prepare_fine_tune_data_gpt: a shallow embedding

    The script [api_scripts/prepare_fine_tune_data_gpt.py] turns a directory
    of text files into a JSON-lines fine-tuning dataset.  This development
    embeds the script in Rocq and proves properties of it.

    Conventions of the embedding.
    - A Python [str] is a list of Unicode code points ([pystr]).
    - The values the script builds (dicts, lists, strings) are [pyval]s; a
      dict keeps its items in insertion order, as Python does.
    - Everything outside the script is a parameter of the run, a [World]:
      the directory listing, the text of each file, the answers of the
      chat-completion service, whether the client can be built and whether
      the output file can be opened.
    - Effects are threaded through a state-and-exception monad [M]; the
      state records the trace of reads and service calls and what has been
      written to the output file.
    - Paths and newlines follow POSIX ([posixpath.join], no translation on
      write).
    - The version check at the top of the module is taken to pass, and a
      write to the opened output file to succeed.
    - [json.dump], [json.loads], [str.strip], [str.endswith],
      [os.path.join] and the text-mode [read] are library code; they are
      written out here after CPython's implementation. *)

From Stdlib Require Import String Ascii.
From Stdlib Require Import List NArith Bool Lia Arith Permutation.
Import ListNotations.

Set Implicit Arguments.
Set Warnings "-register-all".

(* ------------------------------------------------------------------ *)
(** ** Python strings *)

Definition pystr := list N.

(** A string literal of the source, as code points. *)
Definition str (s : string) : pystr :=
  map N_of_ascii (list_ascii_of_string s).

Fixpoint pystr_eqb (a b : pystr) : bool :=
  match a, b with
  | [], [] => true
  | x :: a', y :: b' => N.eqb x y && pystr_eqb a' b'
  | _, _ => false
  end.

(** [s.endswith(suffix)] *)
Definition endswith (s suffix : pystr) : bool :=
  (length suffix <=? length s)%nat &&
  pystr_eqb (skipn (length s - length suffix) s) suffix.

(** [ch.isspace()] for one code point: the characters [str.strip()]
    removes (CPython's [_Py_ascii_whitespace] and
    [_PyUnicode_IsWhitespace]). *)
Definition isspace (c : N) : bool :=
  ((9 <=? c) && (c <=? 13) || (28 <=? c) && (c <=? 32)
   || (c =? 0x85) || (c =? 0xA0) || (c =? 0x1680)
   || (0x2000 <=? c) && (c <=? 0x200A)
   || (c =? 0x2028) || (c =? 0x2029) || (c =? 0x202F)
   || (c =? 0x205F) || (c =? 0x3000))%N.

Fixpoint lstrip (s : pystr) : pystr :=
  match s with
  | [] => []
  | c :: r => if isspace c then lstrip r else s
  end.

Definition rstrip (s : pystr) : pystr := rev (lstrip (rev s)).

(** [s.strip()] *)
Definition strip (s : pystr) : pystr := rstrip (lstrip s).

(** [os.path.join(a, p)] for two components ([posixpath.join]). *)
Definition os_path_join (a p : pystr) : pystr :=
  match p with
  | 47%N :: _ => p
  | _ =>
    match a with
    | [] => p
    | _ => if endswith a (str "/") then a ++ p else a ++ str "/" ++ p
    end
  end.

(** What a text-mode read does to the decoded text of a file: [open] is
    called without [newline=], so universal newlines are on and every
    "\r\n" and every remaining "\r" comes back as "\n". *)
Fixpoint universal_newlines (s : pystr) : pystr :=
  match s with
  | [] => []
  | c :: r =>
    if (c =? 13)%N then
      match r with
      | [] => [10%N]
      | d :: r' =>
        if (d =? 10)%N then 10%N :: universal_newlines r'
        else 10%N :: universal_newlines r
      end
    else c :: universal_newlines r
  end.

(* ------------------------------------------------------------------ *)
(** ** Python values *)

Inductive pyval : Type :=
| PStr (s : pystr)
| PList (l : list pyval)
| PDict (items : list (pystr * pyval)).

(** [{"role": role, "content": content}] *)
Definition message (role content : pystr) : pyval :=
  PDict [(str "role", PStr role); (str "content", PStr content)].

(* ------------------------------------------------------------------ *)
(** ** The environment of a run *)

(** What [client.chat.completions.create(...)], followed by
    [response.choices[0].message.content], gives. *)
Inductive completion : Type :=
| ApiFailure                 (* the call raises, or [choices] is empty *)
| NullContent                (* the message's [content] is [None] *)
| Content (text : pystr).

Record World : Type := {
  (** [openai.OpenAI()] succeeds (credentials are configured) *)
  client_ok : bool;
  (** [os.listdir(path)]; [None] when it raises [OSError] (the path does
      not exist, is not a directory, cannot be read) *)
  listdir : pystr -> option (list pystr);
  (** the UTF-8 decoding of the file at a path; [None] when the path
      cannot be opened for reading or its bytes are not UTF-8 *)
  file_text : pystr -> option pystr;
  (** the answer to the n-th chat-completion call of the run (counting
      from 0), given the keyword arguments of the call *)
  chat_completion : nat -> pyval -> completion;
  (** [open(path, "w")] succeeds *)
  open_write : pystr -> bool
}.

Inductive error : Type :=
| ClientError                      (* openai.OpenAIError from the constructor *)
| ListdirError (path : pystr)      (* OSError from os.listdir *)
| FileReadError (path : pystr)     (* OSError / UnicodeDecodeError from open, read *)
| ServiceError                     (* the completion call failed *)
| NullContentError                 (* AttributeError: None has no strip *)
| OutputOpenError (path : pystr).  (* OSError from open(path, "w") *)

Inductive event : Type :=
| Listdir (path : pystr)
| OpenRead (path : pystr)
| ChatCompletion (request : pyval).

Record State : Type := {
  (** the reads and service calls made so far, oldest first *)
  trace : list event;
  (** what the run has written to the output file; [None] as long as the
      file has not been opened *)
  written : option pystr
}.

Definition initial : State := {| trace := []; written := None |}.

(** The state after one more event. *)
Definition logged (e : event) (st : State) : State :=
  {| trace := trace st ++ [e]; written := written st |}.

Definition is_call (e : event) : bool :=
  match e with ChatCompletion _ => true | _ => false end.

Definition calls_made (t : list event) : nat := length (filter is_call t).

(* ------------------------------------------------------------------ *)
(** ** The monad of the script: state and exceptions *)

Definition M (A : Type) : Type := State -> (error + A) * State.

Definition ret {A} (x : A) : M A := fun st => (inr x, st).

Definition raise {A} (e : error) : M A := fun st => (inl e, st).

Definition bind {A B} (m : M A) (k : A -> M B) : M B :=
  fun st =>
    match m st with
    | (inl e, st') => (inl e, st')
    | (inr x, st') => k x st'
    end.

Declare Scope py_scope.
Delimit Scope py_scope with py.
Notation "x <- m ;; k" := (bind m (fun x => k))
  (at level 61, m at next level, right associativity) : py_scope.
Notation "m ;;; k" := (bind m (fun _ => k))
  (at level 61, right associativity) : py_scope.
Local Open Scope py_scope.

Definition log (e : event) : M unit :=
  fun st => (inr tt, logged e st).

Definition of_option {A} (e : error) (o : option A) : M A :=
  match o with
  | Some x => ret x
  | None => raise e
  end.

(* ------------------------------------------------------------------ *)
(** ** [json.dump]: the encoder, with its defaults
    ([ensure_ascii=True], separators [", "] and [": "]) *)

(** One lower-case hexadecimal digit. *)
Definition hexdigit (d : N) : N :=
  if (d <? 10)%N then (48 + d)%N else (87 + d)%N.

(** ['{0:04x}'.format(n)] for [n < 0x10000]. *)
Definition hex4 (n : N) : pystr :=
  [hexdigit (n / 4096 mod 16); hexdigit (n / 256 mod 16);
   hexdigit (n / 16 mod 16); hexdigit (n mod 16)]%N.

Definition u_escape (n : N) : pystr := 92%N :: 117%N :: hex4 n.

(** The replacement [py_encode_basestring_ascii] makes for one character:
    the regular expression [ESCAPE_ASCII] matches a backslash, a double
    quote and everything outside [' '..'~']; [ESCAPE_DCT] holds the short
    escapes; the rest is written as one or two [\uXXXX]. *)
Definition escape_char (c : N) : pystr :=
  (if c =? 92 then [92; 92]
   else if c =? 34 then [92; 34]
   else if (32 <=? c) && (c <=? 126) then [c]
   else if c =? 8 then [92; 98]
   else if c =? 12 then [92; 102]
   else if c =? 10 then [92; 110]
   else if c =? 13 then [92; 114]
   else if c =? 9 then [92; 116]
   else if c <? 0x10000 then u_escape c
   else
     let n := c - 0x10000 in
     let s1 := N.lor 0xd800 (N.land (N.shiftr n 10) 0x3ff) in
     let s2 := N.lor 0xdc00 (N.land n 0x3ff) in
     u_escape s1 ++ u_escape s2)%N.

Definition encode_basestring_ascii (s : pystr) : pystr :=
  34%N :: flat_map escape_char s ++ [34%N].

(** [sep.join(parts)] *)
Fixpoint join (sep : pystr) (parts : list pystr) : pystr :=
  match parts with
  | [] => []
  | [p] => p
  | p :: rest => p ++ sep ++ join sep rest
  end.

Fixpoint json_dumps (v : pyval) : pystr :=
  match v with
  | PStr s => encode_basestring_ascii s
  | PList l => str "[" ++ join (str ", ") (map json_dumps l) ++ str "]"
  | PDict items =>
    str "{" ++
    join (str ", ")
      (map (fun kv => encode_basestring_ascii (fst kv) ++ str ": "
                      ++ json_dumps (snd kv)) items)
    ++ str "}"
  end.

(* ------------------------------------------------------------------ *)
(** ** The script *)

Definition QUERY_PROMPT : pystr :=
  str "You are a query generator. Given a piece of text, craft a user query that might have resulted in that text as an output.".

(** The keyword arguments of [client.chat.completions.create]. *)
Definition chat_request (assistant_response : pystr) : pyval :=
  PDict [(str "model", PStr (str "gpt-4-1106-preview"));
         (str "messages",
          PList [message (str "system") QUERY_PROMPT;
                 message (str "user") assistant_response])].

(** The dict [_process_text_file] returns. *)
Definition data_entry (persona simulated_query assistant_response : pystr)
  : pyval :=
  PDict [(str "messages",
          PList [message (str "system") persona;
                 message (str "user") simulated_query;
                 message (str "assistant") assistant_response])].

Section Script.

Variable w : World.

(** [openai.OpenAI()] *)
Definition OpenAI : M unit :=
  if client_ok w then ret tt else raise ClientError.

(** [os.listdir(path)] *)
Definition os_listdir (path : pystr) : M (list pystr) :=
  log (Listdir path) ;;;
  of_option (ListdirError path) (listdir w path).

(** [with open(path, "r", encoding="utf-8") as file: file.read()] *)
Definition read_text (path : pystr) : M pystr :=
  log (OpenRead path) ;;;
  text <- of_option (FileReadError path) (file_text w path) ;;
  ret (universal_newlines text).

(** [client.chat.completions.create] with the request as keyword
    arguments, and the selection
    [.choices[0].message.content] *)
Definition chat_completions_create (request : pyval) : M completion :=
  fun st =>
    (inr (chat_completion w (calls_made (trace st)) request),
     {| trace := trace st ++ [ChatCompletion request];
        written := written st |}).

(** [open(path, "w", encoding="utf-8")]: the file is created or
    truncated. *)
Definition open_w (path : pystr) : M unit :=
  fun st =>
    if open_write w path
    then (inr tt, {| trace := trace st; written := Some [] |})
    else (inl (OutputOpenError path), st).

(** [f.write(data)]; the encoder's output is ASCII, so the bytes written
    are the characters. *)
Definition f_write (data : pystr) : M unit :=
  fun st =>
    (inr tt,
     {| trace := trace st;
        written := Some (match written st with
                         | Some old => old ++ data
                         | None => data
                         end) |}).

Section FineTuningDataPreprocessor.

Variable persona : pystr.
Variable data_directory : pystr.

Definition _generate_simulated_query (assistant_response : pystr)
  : M pystr :=
  response <- chat_completions_create (chat_request assistant_response) ;;
  match response with
  | ApiFailure => raise ServiceError
  | NullContent => raise NullContentError
  | Content text => ret (strip text)
  end.

Definition _process_text_file (file_path : pystr) : M pyval :=
  assistant_response <- read_text file_path ;;
  simulated_query <- _generate_simulated_query assistant_response ;;
  ret (data_entry persona simulated_query assistant_response).

(** The [for filename in ...] loop of [generate_training_data];
    [training_data] is the list built so far. *)
Fixpoint process_filenames (filenames : list pystr)
  (training_data : list pyval) : M (list pyval) :=
  match filenames with
  | [] => ret training_data
  | filename :: rest =>
    if endswith filename (str ".txt") then
      let file_path := os_path_join data_directory filename in
      entry <- _process_text_file file_path ;;
      process_filenames rest (training_data ++ [entry])
    else process_filenames rest training_data
  end.

Definition generate_training_data : M (list pyval) :=
  filenames <- os_listdir data_directory ;;
  process_filenames filenames [].

End FineTuningDataPreprocessor.

(** The [for data_entry in training_data] loop of [main]. *)
Fixpoint write_entries (training_data : list pyval) : M unit :=
  match training_data with
  | [] => ret tt
  | entry :: rest =>
    f_write (json_dumps entry) ;;;
    f_write [10%N] ;;;
    write_entries rest
  end.

(** [main], after [argparse] has produced the three required arguments. *)
Definition main (persona data_dir output_file : pystr) : M unit :=
  OpenAI ;;;
  training_data <- generate_training_data persona data_dir ;;
  open_w output_file ;;;
  write_entries training_data.

End Script.

(* ------------------------------------------------------------------ *)
(** ** [json.loads]: the decoder, for documents made of objects, arrays
    and strings (the documents the script writes).  A number or a literal
    is outside this fragment and is read as a failure. *)

Definition hexval (c : N) : option N :=
  (if (48 <=? c) && (c <=? 57) then Some (c - 48)
   else if (97 <=? c) && (c <=? 102) then Some (c - 87)
   else if (65 <=? c) && (c <=? 70) then Some (c - 55)
   else None)%N.

(** [_decode_uXXXX]: four hexadecimal digits. *)
Definition decode_uXXXX (s : pystr) : option (N * pystr) :=
  match s with
  | a :: b :: c :: d :: r =>
    match hexval a, hexval b, hexval c, hexval d with
    | Some x, Some y, Some z, Some t =>
      Some (4096 * x + 256 * y + 16 * z + t, r)%N
    | _, _, _, _ => None
    end
  | _ => None
  end.

(** The table [BACKSLASH] of the decoder. *)
Definition unescape (e : N) : option N :=
  (if e =? 34 then Some 34
   else if e =? 92 then Some 92
   else if e =? 47 then Some 47
   else if e =? 98 then Some 8
   else if e =? 102 then Some 12
   else if e =? 110 then Some 10
   else if e =? 114 then Some 13
   else if e =? 116 then Some 9
   else None)%N.

Definition is_high_surrogate (c : N) : bool :=
  ((0xd800 <=? c) && (c <=? 0xdbff))%N.

Definition is_low_surrogate (c : N) : bool :=
  ((0xdc00 <=? c) && (c <=? 0xdfff))%N.

Inductive item : Type :=
| Closing (rest : pystr)           (* the closing quote *)
| Char (c : N) (rest : pystr)      (* one decoded character *)
| Invalid.                         (* JSONDecodeError *)

(** One step of [py_scanstring] (strict mode): what the string holds at
    its current position. *)
Definition next_item (s : pystr) : item :=
  match s with
  | [] => Invalid
  | c :: r =>
    if (c =? 34)%N then Closing r
    else if (c =? 92)%N then
      match r with
      | [] => Invalid
      | e :: r1 =>
        if (e =? 117)%N then
          match decode_uXXXX r1 with
          | None => Invalid
          | Some (uni, r2) =>
            match r2 with
            | b :: u :: r3 =>
              if is_high_surrogate uni && (b =? 92)%N && (u =? 117)%N then
                match decode_uXXXX r3 with
                | None => Invalid
                | Some (uni2, r4) =>
                  if is_low_surrogate uni2 then
                    Char (0x10000 +
                          N.lor (N.shiftl (uni - 0xd800) 10) (uni2 - 0xdc00))%N
                         r4
                  else Char uni r2
                end
              else Char uni r2
            | _ => Char uni r2
            end
          end
        else
          match unescape e with
          | Some ch => Char ch r1
          | None => Invalid
          end
      end
    else if (c <? 32)%N then Invalid
    else Char c r
  end.

Fixpoint scanstring_loop (fuel : nat) (s : pystr) : option (pystr * pystr) :=
  match fuel with
  | O => None
  | S n =>
    match next_item s with
    | Closing r => Some ([], r)
    | Invalid => None
    | Char c r =>
      match scanstring_loop n r with
      | Some (cs, r') => Some (c :: cs, r')
      | None => None
      end
    end
  end.

(** [scanstring(s, end)], called just after the opening quote: the decoded
    string and what follows the closing quote.  Every step consumes a
    character, so the length of the input bounds the loop. *)
Definition scanstring (s : pystr) : option (pystr * pystr) :=
  scanstring_loop (S (length s)) s.

Definition is_ws (c : N) : bool :=
  ((c =? 32) || (c =? 9) || (c =? 10) || (c =? 13))%N.

(** [WHITESPACE.match(s, end).end()] *)
Fixpoint skip_ws (s : pystr) : pystr :=
  match s with
  | [] => []
  | c :: r => if is_ws c then skip_ws r else s
  end.

(** The [while True] loop of [JSONArray], entered at the first value. *)
Fixpoint array_values (scan_once : pystr -> option (pyval * pystr))
  (fuel : nat) (s : pystr) : option (list pyval * pystr) :=
  match fuel with
  | O => None
  | S n =>
    match scan_once s with
    | None => None
    | Some (value, r) =>
      match skip_ws r with
      | [] => None
      | c :: r1 =>
        if (c =? 93)%N then Some ([value], r1)
        else if (c =? 44)%N then
          match array_values scan_once n (skip_ws r1) with
          | Some (values, r2) => Some (value :: values, r2)
          | None => None
          end
        else None
      end
    end
  end.

(** [JSONArray], called just after the opening bracket. *)
Definition JSONArray (scan_once : pystr -> option (pyval * pystr))
  (s : pystr) : option (pyval * pystr) :=
  match skip_ws s with
  | [] => None
  | c :: r =>
    if (c =? 93)%N then Some (PList [], r)
    else
      match array_values scan_once (length s) (skip_ws s) with
      | Some (values, r') => Some (PList values, r')
      | None => None
      end
  end.

(** The [while True] loop of [JSONObject], entered just after the opening
    quote of a key. *)
Fixpoint object_pairs (scan_once : pystr -> option (pyval * pystr))
  (fuel : nat) (s : pystr) : option (list (pystr * pyval) * pystr) :=
  match fuel with
  | O => None
  | S n =>
    match scanstring s with
    | None => None
    | Some (key, r) =>
      match skip_ws r with
      | [] => None
      | c :: r1 =>
        if (c =? 58)%N then
          match scan_once (skip_ws r1) with
          | None => None
          | Some (value, r2) =>
            match skip_ws r2 with
            | [] => None
            | d :: r3 =>
              if (d =? 125)%N then Some ([(key, value)], r3)
              else if (d =? 44)%N then
                match skip_ws r3 with
                | [] => None
                | q :: r4 =>
                  if (q =? 34)%N then
                    match object_pairs scan_once n r4 with
                    | Some (pairs, r5) => Some ((key, value) :: pairs, r5)
                    | None => None
                    end
                  else None
                end
              else None
            end
          end
        else None
      end
    end
  end.

(** [d[key] = value] on a dict kept in insertion order. *)
Fixpoint dict_set (d : list (pystr * pyval)) (key : pystr) (value : pyval)
  : list (pystr * pyval) :=
  match d with
  | [] => [(key, value)]
  | (k, v) :: r =>
    if pystr_eqb k key then (k, value) :: r
    else (k, v) :: dict_set r key value
  end.

(** [dict(pairs)] *)
Definition dict (pairs : list (pystr * pyval)) : list (pystr * pyval) :=
  fold_left (fun d kv => dict_set d (fst kv) (snd kv)) pairs [].

(** [JSONObject], called just after the opening brace. *)
Definition JSONObject (scan_once : pystr -> option (pyval * pystr))
  (s : pystr) : option (pyval * pystr) :=
  match skip_ws s with
  | [] => None
  | c :: r =>
    if (c =? 125)%N then Some (PDict [], r)
    else if (c =? 34)%N then
      match object_pairs scan_once (length s) r with
      | Some (pairs, r') => Some (PDict (dict pairs), r')
      | None => None
      end
    else None
  end.

(** [scan_once]; [fuel] bounds the nesting depth. *)
Fixpoint scan_once (fuel : nat) (s : pystr) : option (pyval * pystr) :=
  match fuel with
  | O => None
  | S n =>
    match s with
    | [] => None
    | c :: r =>
      if (c =? 34)%N then
        match scanstring r with
        | Some (x, r') => Some (PStr x, r')
        | None => None
        end
      else if (c =? 123)%N then JSONObject (scan_once n) r
      else if (c =? 91)%N then JSONArray (scan_once n) r
      else None
    end
  end.

(** [json.loads(s)]: one value, with nothing but whitespace around it.
    A value nested [d] deep is at least [d] characters long. *)
Definition json_loads (s : pystr) : option pyval :=
  match scan_once (S (length s)) (skip_ws s) with
  | Some (v, r) =>
    match skip_ws r with
    | [] => Some v
    | _ :: _ => None
    end
  | None => None
  end.

(* ------------------------------------------------------------------ *)
(** ** Vocabulary of the statements *)

(** [v[key]] on a dict. *)
Definition dict_get (v : pyval) (key : pystr) : option pyval :=
  match v with
  | PDict items =>
    match find (fun kv => pystr_eqb (fst kv) key) items with
    | Some kv => Some (snd kv)
    | None => None
    end
  | _ => None
  end.

(** The role and the content of a message dict. *)
Definition role_content (m : pyval) : option (pystr * pystr) :=
  match dict_get m (str "role"), dict_get m (str "content") with
  | Some (PStr r), Some (PStr c) => Some (r, c)
  | _, _ => None
  end.

Fixpoint all_some {A} (l : list (option A)) : option (list A) :=
  match l with
  | [] => Some []
  | Some x :: r =>
    match all_some r with
    | Some xs => Some (x :: xs)
    | None => None
    end
  | None :: _ => None
  end.

(** The (role, content) pairs of [entry["messages"]], in order. *)
Definition messages_of (entry : pyval) : option (list (pystr * pystr)) :=
  match dict_get entry (str "messages") with
  | Some (PList ms) => all_some (map role_content ms)
  | _ => None
  end.

(** A string with no whitespace at either end (the empty string
    included). *)
Definition trimmed (s : pystr) : Prop :=
  match s with
  | [] => True
  | c :: _ => isspace c = false /\ isspace (last s c) = false
  end.

(** The lines of a text: the runs of characters ended by a newline, and
    the unterminated run at the end when there is one. *)
Fixpoint lines_of (s : pystr) : list pystr :=
  match s with
  | [] => []
  | c :: r =>
    if (c =? 10)%N then [] :: lines_of r
    else
      match r with
      | [] => [[c]]
      | _ :: _ =>
        match lines_of r with
        | [] => [[c]]
        | l :: ls => (c :: l) :: ls
        end
      end
  end.

(** The characters the encoder writes: ASCII from the space to the
    tilde. *)
Definition printable (c : N) : Prop := (32 <= c <= 126)%N.

Definition is_txt (filename : pystr) : bool := endswith filename (str ".txt").

Section Expected.

Variable w : World.
Variable persona data_directory : pystr.

(** [entry] is the record of [filename] when the file is read and its
    query is the answer to call number [k] of the run. *)
Definition entry_for (k : nat) (filename : pystr) (entry : pyval) : Prop :=
  exists text answer,
    file_text w (os_path_join data_directory filename) = Some text /\
    chat_completion w k (chat_request (universal_newlines text))
      = Content answer /\
    entry = data_entry persona (strip answer) (universal_newlines text).

(** [entries] are the records of [filenames], one each and in order, the
    first of them using call number [k]. *)
Fixpoint entries_from (k : nat) (filenames : list pystr)
  (entries : list pyval) : Prop :=
  match filenames, entries with
  | [], [] => True
  | f :: fs, e :: es => entry_for k f e /\ entries_from (S k) fs es
  | _, _ => False
  end.

End Expected.

Section TwoWorlds.

Variables w1 w2 : World.
Variable data_directory : pystr.

(** The two environments give the qualifying files of [names] the same
    text, and the calls made for them the same answers, the first call
    being number [k]. *)
Definition agree_from (k : nat) (names : list pystr) : Prop :=
  forall i f,
    nth_error (filter is_txt names) i = Some f ->
    file_text w1 (os_path_join data_directory f) = file_text w2 (os_path_join data_directory f) /\
    forall text,
      file_text w1 (os_path_join data_directory f) = Some text ->
      chat_completion w1 (k + i) (chat_request (universal_newlines text))
      = chat_completion w2 (k + i) (chat_request (universal_newlines text)).

End TwoWorlds.

(** Text the decoder gives back as it was encoded: code points of the
    Unicode range, and no high surrogate directly before a low one (such
    a pair is written as two escapes, which the decoder reads as one
    character). *)
Fixpoint text_ok (s : pystr) : bool :=
  match s with
  | [] => true
  | c :: r =>
    (c <? 0x110000)%N
    && negb (is_high_surrogate c
             && match r with
                | d :: _ => is_low_surrogate d
                | [] => false
                end)
    && text_ok r
  end.

(** The code points of a Python [str] lie below [0x110000]. *)
Definition is_str (s : pystr) : bool :=
  forallb (fun c => (c <? 0x110000)%N) s.

(** What the decoder makes of a string the encoder wrote: a high
    surrogate directly followed by a low one has become the one character
    the two stand for; everything else is as it was. *)
Fixpoint combine_surrogates (s : pystr) : pystr :=
  match s with
  | [] => []
  | c :: r =>
    match r with
    | [] => [c]
    | d :: r' =>
      if is_high_surrogate c && is_low_surrogate d then
        (0x10000 + N.lor (N.shiftl (c - 0xd800) 10) (d - 0xdc00))%N
        :: combine_surrogates r'
      else c :: combine_surrogates r
    end
  end.

(** The decoder, having read a high surrogate written as an escape, finds
    the escape of a low surrogate next (or an escape it cannot read). *)
Definition low_escape_ahead (s : pystr) : bool :=
  match s with
  | b :: u :: r =>
    (b =? 92)%N && (u =? 117)%N &&
    match decode_uXXXX r with
    | Some (uni, _) => is_low_surrogate uni
    | None => true
    end
  | _ => false
  end.

(** Values all of whose strings are [text_ok] and whose dicts have
    distinct keys. *)
Fixpoint wf_val (v : pyval) : Prop :=
  match v with
  | PStr s => text_ok s = true
  | PList l => fold_right (fun x P => wf_val x /\ P) True l
  | PDict items =>
    NoDup (map fst items) /\
    fold_right (fun kv P => text_ok (fst kv) = true /\ wf_val (snd kv) /\ P)
      True items
  end.

(** How deep a value nests: the fuel [scan_once] needs to read it. *)
Fixpoint depth (v : pyval) : nat :=
  match v with
  | PStr _ => 1
  | PList l => S (fold_right (fun x m => Nat.max (depth x) m) 0 l)
  | PDict items =>
    S (fold_right (fun kv m => Nat.max (depth (snd kv)) m) 0 items)
  end.

(** What the encoder writes for one item of a dict. *)
Definition dumps_item (kv : pystr * pyval) : pystr :=
  encode_basestring_ascii (fst kv) ++ str ": " ++ json_dumps (snd kv).

(* ------------------------------------------------------------------ *)
(** ** Concrete runs *)

(** A directory ["data"] with the given entries; every file under it that
    [texts] knows is readable; the service gives [answer] to every
    call. *)
Definition scenario (names : list pystr)
  (texts : pystr -> option pystr) (answer : completion) : World :=
  {| client_ok := true;
     listdir := fun p => if pystr_eqb p (str "data") then Some names else None;
     file_text := texts;
     chat_completion := fun _ _ => answer;
     open_write := fun _ => true |}.

Definition only_a_txt (text : pystr) (p : pystr) : option pystr :=
  if pystr_eqb p (str "data/a.txt") then Some text else None.

(** [a.txt] holds "Hello world", [b.md] is ignored, the service answers
    " What should I say? ". *)
Definition demo_world : World :=
  scenario [str "a.txt"; str "b.md"] (only_a_txt (str "Hello world"))
    (Content (str " What should I say? ")).

(** The service answers with blanks and a newline only. *)
Definition blank_world : World :=
  scenario [str "a.txt"; str "b.md"] (only_a_txt (str "Hello world"))
    (Content [32; 32; 10]%N).

(** [a.txt] holds two lines ended the DOS way: "a\r\nb\r\n". *)
Definition crlf_world : World :=
  scenario [str "a.txt"] (only_a_txt [97; 13; 10; 98; 13; 10]%N)
    (Content (str "Q")).

(** [x.txt] is listed after [a.txt] but cannot be read (a directory, or
    bytes that are not UTF-8). *)
Definition unreadable_world : World :=
  scenario [str "a.txt"; str "x.txt"; str "c.txt"]
    (only_a_txt (str "Hello world")) (Content (str "Q")).

(** As [demo_world], except that [b.md] can be read too and that the
    service answers differently from its second call on. *)
Definition demo_world_variant : World :=
  {| client_ok := true;
     listdir := listdir demo_world;
     file_text := fun p =>
       if pystr_eqb p (str "data/b.md") then Some (str "# notes")
       else file_text demo_world p;
     chat_completion := fun k req =>
       match k with
       | O => chat_completion demo_world k req
       | S _ => ApiFailure
       end;
     open_write := fun _ => true |}.

(** The input directory does not exist. *)
Definition missing_dir_world : World :=
  {| client_ok := true;
     listdir := fun _ => None;
     file_text := fun _ => None;
     chat_completion := fun _ _ => Content (str "Q");
     open_write := fun _ => true |}.

Definition Bob : pystr := str "You are Bob.".

(* ------------------------------------------------------------------ *)
(** ** Vocabulary of the further properties *)

(** What a run of the loop over [names] leaves in the trace when its first
    call is number [k]: for each name the read and, when the file could be
    read, the call; nothing after the first read that fails or the first
    call that brings no text. *)
Fixpoint run_events (w : World) (data_directory : pystr) (k : nat)
  (names : list pystr) : list event :=
  match names with
  | [] => []
  | f :: rest =>
    let file_path := os_path_join data_directory f in
    match file_text w file_path with
    | None => [OpenRead file_path]
    | Some text =>
      let request := chat_request (universal_newlines text) in
      OpenRead file_path :: ChatCompletion request ::
      match chat_completion w k request with
      | Content _ => run_events w data_directory (S k) rest
      | _ => []
      end
    end
  end.

Definition is_read (e : event) : bool :=
  match e with OpenRead _ => true | _ => false end.

Definition reads_made (t : list event) : nat := length (filter is_read t).

(** The environment [w] with another listing for one directory. *)
Definition relisted (w : World) (data_directory : pystr)
  (names : list pystr) : World :=
  {| client_ok := client_ok w;
     listdir := fun p =>
       if pystr_eqb p data_directory then Some names else listdir w p;
     file_text := file_text w;
     chat_completion := chat_completion w;
     open_write := open_write w |}.

(** Two records with the same user and assistant messages, under the
    personas [p1] and [p2]. *)
Definition same_but_persona (p1 p2 : pystr) (e1 e2 : pyval) : Prop :=
  exists query response,
    e1 = data_entry p1 query response /\ e2 = data_entry p2 query response.

(** The outcomes of two runs under two personas: the same error, or
    records that differ by the persona only. *)
Definition same_outcome (p1 p2 : pystr)
  (r1 r2 : error + list pyval) : Prop :=
  match r1, r2 with
  | inl e1, inl e2 => e1 = e2
  | inr es1, inr es2 => Forall2 (same_but_persona p1 p2) es1 es2
  | _, _ => False
  end.

(** The directory holds no name that ends in ".txt". *)
Definition no_txt_world : World :=
  scenario [str "b.md"; str "notes.TXT"; str "a.txt.bak"]
    (fun _ => Some (str "unused")) (Content (str "Q")).

(** The message of the service has no content. *)
Definition null_world : World :=
  scenario [str "a.txt"; str "c.txt"] (only_a_txt (str "Hello world"))
    NullContent.

(** The service call fails. *)
Definition failing_service_world : World :=
  scenario [str "a.txt"; str "c.txt"] (only_a_txt (str "Hello world"))
    ApiFailure.

(** As [demo_world], but the output file cannot be opened. *)
Definition readonly_world : World :=
  {| client_ok := true;
     listdir := listdir demo_world;
     file_text := file_text demo_world;
     chat_completion := chat_completion demo_world;
     open_write := fun _ => false |}.

(** As [demo_world], but the client cannot be built and the directory is
    missing. *)
Definition no_credentials_world : World :=
  {| client_ok := false;
     listdir := fun _ => None;
     file_text := file_text demo_world;
     chat_completion := chat_completion demo_world;
     open_write := fun _ => false |}.

(** Two qualifying files, the service answering with the text it is
    sent. *)
Definition two_files_world : World :=
  {| client_ok := true;
     listdir := fun p =>
       if pystr_eqb p (str "data")
       then Some [str "a.txt"; str "b.md"; str "c.txt"] else None;
     file_text := fun p =>
       if pystr_eqb p (str "data/a.txt") then Some (str "first")
       else if pystr_eqb p (str "data/c.txt") then Some [13; 10; 233]%N
       else None;
     chat_completion := fun _ req =>
       match dict_get req (str "messages") with
       | Some (PList [_; m]) =>
         match dict_get m (str "content") with
         | Some (PStr text) => Content text
         | _ => ApiFailure
         end
       | _ => ApiFailure
       end;
     open_write := fun _ => true |}.

(* ================================================================== *)
(** * Proofs *)

(** ** Strings *)

Lemma pystr_eqb_eq (a b : pystr) : pystr_eqb a b = true <-> a = b.
Proof.
  revert b; induction a as [|x a IH]; intros [|y b]; simpl;
    try (split; [discriminate | congruence]); try tauto.
  rewrite andb_true_iff, N.eqb_eq, IH. split.
  - intros [-> ->]; reflexivity.
  - intros H; inversion H; auto.
Qed.

Lemma pystr_eqb_refl (a : pystr) : pystr_eqb a a = true.
Proof. apply pystr_eqb_eq; reflexivity. Qed.

Lemma lstrip_all_space (s : pystr) :
  forallb isspace s = true -> lstrip s = [].
Proof.
  induction s as [|c r IH]; simpl; [reflexivity|].
  intros H; apply andb_true_iff in H as [Hc Hr].
  rewrite Hc; auto.
Qed.

Lemma strip_all_space (s : pystr) :
  forallb isspace s = true -> strip s = [].
Proof.
  intros H; unfold strip, rstrip.
  rewrite (lstrip_all_space _ H); reflexivity.
Qed.

Lemma lstrip_split (s : pystr) :
  exists l, s = l ++ lstrip s /\ forallb isspace l = true.
Proof.
  induction s as [|c r [l [E Hl]]]; simpl.
  - exists []; auto.
  - destruct (isspace c) eqn:Hc.
    + exists (c :: l); simpl; rewrite Hc, Hl; split; [f_equal; exact E | reflexivity].
    + exists []; auto.
Qed.

Lemma lstrip_head (s : pystr) :
  match lstrip s with
  | [] => True
  | c :: _ => isspace c = false
  end.
Proof.
  induction s as [|c r IH]; simpl; [exact I|].
  destruct (isspace c) eqn:Hc; [exact IH | exact Hc].
Qed.

Lemma forallb_rev {A} (f : A -> bool) (l : list A) :
  forallb f l = true -> forallb f (rev l) = true.
Proof.
  rewrite !forallb_forall; intros H x Hx; apply H, in_rev, Hx.
Qed.

Lemma rstrip_split (s : pystr) :
  exists r, s = rstrip s ++ r /\ forallb isspace r = true.
Proof.
  destruct (lstrip_split (rev s)) as [l [E Hl]].
  exists (rev l); split; [|apply forallb_rev, Hl].
  unfold rstrip. rewrite <- rev_app_distr, <- E, rev_involutive; reflexivity.
Qed.

Lemma rstrip_last (s : pystr) (d : N) :
  rstrip s = [] \/ isspace (last (rstrip s) d) = false.
Proof.
  unfold rstrip. pose proof (lstrip_head (rev s)) as H.
  destruct (lstrip (rev s)) as [|c x]; [left; reflexivity|right].
  simpl. rewrite last_last; exact H.
Qed.

Lemma strip_trimmed (s : pystr) : trimmed (strip s).
Proof.
  unfold strip, trimmed.
  destruct (rstrip (lstrip s)) as [|c v] eqn:E; [exact I|].
  split.
  - destruct (rstrip_split (lstrip s)) as [r [Er _]].
    pose proof (lstrip_head s) as H. rewrite Er, E in H. exact H.
  - destruct (rstrip_last (lstrip s) c) as [H|H]; rewrite E in H;
      [discriminate | exact H].
Qed.

(** [strip] removes a run of whitespace at each end and nothing else. *)
Lemma strip_split (s : pystr) :
  exists lead trail,
    s = lead ++ strip s ++ trail /\
    forallb isspace lead = true /\ forallb isspace trail = true.
Proof.
  destruct (lstrip_split s) as [l [El Hl]].
  destruct (rstrip_split (lstrip s)) as [r [Er Hr]].
  exists l, r; repeat split; auto.
  unfold strip; rewrite <- Er; exact El.
Qed.

Lemma lstrip_app_space (l s : pystr) :
  forallb isspace l = true -> lstrip (l ++ s) = lstrip s.
Proof.
  induction l as [|c l IH]; simpl; [reflexivity|].
  intros H; apply andb_true_iff in H as [Hc Hl]; rewrite Hc; auto.
Qed.

Lemma lstrip_id (s : pystr) :
  match s with [] => True | c :: _ => isspace c = false end ->
  lstrip s = s.
Proof. destruct s as [|c r]; simpl; [reflexivity|intros ->; reflexivity]. Qed.

(** Whatever whitespace is put around a trimmed string, [strip] gives the
    string back. *)
Lemma strip_unique (lead m trail : pystr) :
  forallb isspace lead = true -> forallb isspace trail = true ->
  trimmed m -> strip (lead ++ m ++ trail) = m.
Proof.
  intros Hl Ht Hm. unfold strip. rewrite (lstrip_app_space _ _ Hl).
  destruct m as [|c m'].
  - simpl. fold (strip trail). apply strip_all_space, Ht.
  - destruct Hm as [Hc Hlast].
    rewrite lstrip_id by (simpl; exact Hc).
    unfold rstrip. rewrite rev_app_distr.
    rewrite lstrip_app_space by (apply forallb_rev, Ht).
    rewrite lstrip_id; [apply rev_involutive|].
    destruct (@exists_last _ (c :: m')) as [x [a E]]; [discriminate|].
    rewrite E in Hlast |- *. rewrite last_last in Hlast.
    rewrite rev_app_distr; simpl; exact Hlast.
Qed.

Lemma universal_newlines_id (s : pystr) :
  ~ In 13%N s -> universal_newlines s = s.
Proof.
  induction s as [|c r IH]; simpl; [reflexivity|].
  intros H. destruct (N.eqb_spec c 13) as [->|_]; [tauto|].
  f_equal; apply IH; tauto.
Qed.

(** ** One file *)

Lemma calls_made_app (t : list event) (e : event) :
  calls_made (t ++ [e]) = calls_made t + (if is_call e then 1 else 0).
Proof.
  unfold calls_made. rewrite filter_app, length_app. simpl.
  destruct (is_call e); reflexivity.
Qed.

Section OneFile.

Variable w : World.
Variable persona : pystr.

(** Every way [_process_text_file] can go. *)
Lemma process_text_file_run (file_path : pystr) (st : State) :
  _process_text_file w persona file_path st =
  match file_text w file_path with
  | None =>
    (inl (FileReadError file_path),
     {| trace := trace st ++ [OpenRead file_path]; written := written st |})
  | Some text =>
    let response := universal_newlines text in
    let st' :=
      {| trace := (trace st ++ [OpenRead file_path])
                  ++ [ChatCompletion (chat_request response)];
         written := written st |} in
    match chat_completion w (calls_made (trace st)) (chat_request response) with
    | ApiFailure => (inl ServiceError, st')
    | NullContent => (inl NullContentError, st')
    | Content answer =>
      (inr (data_entry persona (strip answer) response), st')
    end
  end.
Proof.
  unfold _process_text_file, read_text, _generate_simulated_query,
    chat_completions_create, bind, log, of_option, ret, raise; simpl.
  destruct (file_text w file_path) as [text|]; simpl; [|reflexivity].
  rewrite calls_made_app; simpl. rewrite Nat.add_0_r.
  destruct (chat_completion _ _ _); reflexivity.
Qed.

End OneFile.

(** ** The process_filenames w persona data_directory over the directory *)

Section Loop.

Variable w : World.
Variable persona data_directory : pystr.


Lemma process_filenames_txt (f : pystr) (rest : list pystr)
  (acc : list pyval) (st : State) :
  is_txt f = true ->
  process_filenames w persona data_directory (f :: rest) acc st =
  match _process_text_file w persona (os_path_join data_directory f) st with
  | (inl e, st') => (inl e, st')
  | (inr entry, st') => process_filenames w persona data_directory rest (acc ++ [entry]) st'
  end.
Proof.
  intros H. simpl. unfold is_txt in H; rewrite H. reflexivity.
Qed.

Lemma process_filenames_other (f : pystr) (rest : list pystr)
  (acc : list pyval) (st : State) :
  is_txt f = false -> process_filenames w persona data_directory (f :: rest) acc st = process_filenames w persona data_directory rest acc st.
Proof.
  intros H. simpl. unfold is_txt in H; rewrite H. reflexivity.
Qed.

(** Entries without the suffix play no part in the loop. *)
Lemma process_filenames_filter (names : list pystr) :
  forall acc st, process_filenames w persona data_directory names acc st = process_filenames w persona data_directory (filter is_txt names) acc st.
Proof.
  induction names as [|f rest IH]; intros acc st; [reflexivity|].
  simpl filter. destruct (is_txt f) eqn:Hf.
  - rewrite !process_filenames_txt by exact Hf.
    destruct (_process_text_file w persona (os_path_join data_directory f) st) as [[e|entry] st'];
      [reflexivity | apply IH].
  - rewrite process_filenames_other by exact Hf. apply IH.
Qed.

(** The process_filenames w persona data_directory stops at the first failure. *)
Lemma process_filenames_app (pre post : list pystr) :
  forall acc st,
    process_filenames w persona data_directory (pre ++ post) acc st =
    match process_filenames w persona data_directory pre acc st with
    | (inl e, st') => (inl e, st')
    | (inr acc', st') => process_filenames w persona data_directory post acc' st'
    end.
Proof.
  induction pre as [|f rest IH]; intros acc st; [reflexivity|].
  rewrite <- app_comm_cons. destruct (is_txt f) eqn:Hf.
  - rewrite !process_filenames_txt by exact Hf.
    destruct (_process_text_file w persona (os_path_join data_directory f) st) as [[e|entry] st'];
      [reflexivity | apply IH].
  - rewrite !process_filenames_other by exact Hf. apply IH.
Qed.

(** The process_filenames w persona data_directory writes nothing. *)
Lemma process_filenames_written (names : list pystr) :
  forall acc st r st',
    process_filenames w persona data_directory names acc st = (r, st') -> written st' = written st.
Proof.
  induction names as [|f rest IH]; intros acc st r st' H.
  - inversion H; reflexivity.
  - destruct (is_txt f) eqn:Hf.
    + rewrite process_filenames_txt in H by exact Hf.
      rewrite process_text_file_run in H.
      destruct (file_text w (os_path_join data_directory f)) as [text|];
        [|inversion H; reflexivity].
      cbv zeta in H.
      destruct (chat_completion w _ _);
        try (inversion H; reflexivity).
      apply IH in H. exact H.
    + rewrite process_filenames_other in H by exact Hf. eapply IH, H.
Qed.

(** A successful process_filenames w persona data_directory adds one record per qualifying name, in order. *)
Lemma process_filenames_ok (names : list pystr) :
  forall acc st entries st',
    process_filenames w persona data_directory names acc st = (inr entries, st') ->
    exists new,
      entries = acc ++ new /\
      entries_from w persona data_directory (calls_made (trace st))
        (filter is_txt names) new.
Proof.
  induction names as [|f rest IH]; intros acc st entries st' H.
  - inversion H; subst. exists []; rewrite app_nil_r; simpl; auto.
  - simpl filter. destruct (is_txt f) eqn:Hf.
    + rewrite process_filenames_txt in H by exact Hf.
      rewrite process_text_file_run in H.
      destruct (file_text w (os_path_join data_directory f)) as [text|] eqn:Ht; [|discriminate].
      cbv zeta in H.
      destruct (chat_completion w _ _) as [| |answer] eqn:Hc;
        try discriminate.
      apply IH in H as [new [E Hn]]. simpl in Hn.
      rewrite !calls_made_app in Hn; simpl in Hn.
      rewrite Nat.add_0_r, Nat.add_1_r in Hn.
      exists (data_entry persona (strip answer) (universal_newlines text)
              :: new).
      split; [rewrite E, <- app_assoc; reflexivity|].
      simpl; split; [|exact Hn].
      exists text, answer; auto.
    + rewrite process_filenames_other in H by exact Hf. eapply IH, H.
Qed.

(** Conversely, when every qualifying file can be read and gets an answer,
    the process_filenames w persona data_directory succeeds. *)
Lemma process_filenames_complete (names : list pystr) :
  forall acc st new,
    entries_from w persona data_directory (calls_made (trace st))
      (filter is_txt names) new ->
    exists st', process_filenames w persona data_directory names acc st = (inr (acc ++ new), st').
Proof.
  induction names as [|f rest IH]; intros acc st new H.
  - destruct new; [|contradiction]. rewrite app_nil_r.
    exists st; reflexivity.
  - simpl filter in H. destruct (is_txt f) eqn:Hf.
    + destruct new as [|e new]; [contradiction|].
      destruct H as [[text [answer [Ht [Hc ->]]]] Hn].
      rewrite process_filenames_txt by exact Hf.
      rewrite process_text_file_run. rewrite Ht.
      cbv zeta. rewrite Hc.
      match goal with
      | |- exists _, process_filenames w persona data_directory _ ?a ?s = _ => destruct (IH a s new) as [st' E]
      end.
      * simpl. rewrite !calls_made_app; simpl.
        rewrite Nat.add_0_r, Nat.add_1_r. exact Hn.
      * exists st'. rewrite E, <- app_assoc. reflexivity.
    + rewrite process_filenames_other by exact Hf. apply IH, H.
Qed.

(** What one file adds to the trace. *)
Lemma process_text_file_trace (p : pystr) (st : State)
  (r : error + pyval) (st' : State) (e : event) :
  _process_text_file w persona p st = (r, st') -> In e (trace st') ->
  In e (trace st) \/ e = OpenRead p \/
  exists text, file_text w p = Some text /\
    e = ChatCompletion (chat_request (universal_newlines text)).
Proof.
  rewrite process_text_file_run. intros H He.
  destruct (file_text w p) as [text|] eqn:Ht.
  - assert (E : trace st' = (trace st ++ [OpenRead p]) ++
                [ChatCompletion (chat_request (universal_newlines text))]).
    { cbv zeta in H. destruct (chat_completion w _ _);
        inversion H; reflexivity. }
    rewrite E in He.
    apply in_app_or in He as [He|[He|[]]].
    + apply in_app_or in He as [He|[He|[]]]; auto.
    + right; right; exists text; auto.
  - inversion H; subst; simpl in He.
    apply in_app_or in He as [He|[He|[]]]; auto.
Qed.

(** What the process_filenames w persona data_directory reads and sends. *)
Lemma process_filenames_trace (names : list pystr) :
  forall acc st r st' e,
    process_filenames w persona data_directory names acc st = (r, st') -> In e (trace st') ->
    In e (trace st) \/
    exists f, In f names /\ is_txt f = true /\
      (e = OpenRead (os_path_join data_directory f) \/
       exists text, file_text w (os_path_join data_directory f) = Some text /\
         e = ChatCompletion (chat_request (universal_newlines text))).
Proof.
  induction names as [|f rest IH]; intros acc st r st' e H He.
  - inversion H; subst; auto.
  - destruct (is_txt f) eqn:Hf.
    + rewrite process_filenames_txt in H by exact Hf.
      destruct (_process_text_file w persona (os_path_join data_directory f) st)
        as [[err|entry] st1] eqn:E.
      * inversion H; subst.
        destruct (process_text_file_trace _ _ _ E He) as [K|K]; [auto|].
        right; exists f; simpl; auto.
      * destruct (IH _ _ _ _ e H He) as [K|[f0 [K1 K2]]].
        -- destruct (process_text_file_trace _ _ _ E K) as [K'|K']; [auto|].
           right; exists f; simpl; auto.
        -- right; exists f0; simpl; auto.
    + rewrite process_filenames_other in H by exact Hf.
      destruct (IH _ _ _ _ e H He) as [K|[f0 [K1 K2]]]; [auto|].
      right; exists f0; simpl; auto.
Qed.

Lemma generate_training_data_run (st : State) :
  generate_training_data w persona data_directory st =
  match listdir w data_directory with
  | None => (inl (ListdirError data_directory),
             logged (Listdir data_directory) st)
  | Some names => process_filenames w persona data_directory names [] (logged (Listdir data_directory) st)
  end.
Proof.
  unfold generate_training_data, os_listdir, bind, log, of_option; simpl.
  destruct (listdir w data_directory); reflexivity.
Qed.

Lemma write_entries_run (data : list pyval) :
  forall st,
    write_entries data st =
    (inr tt,
     {| trace := trace st;
        written :=
          match data, written st with
          | [], None => None
          | _, old =>
            Some (match old with Some x => x | None => [] end ++
                  flat_map (fun e => json_dumps e ++ [10%N]) data)
          end |}).
Proof.
  induction data as [|e rest IH]; intros st.
  - simpl. unfold ret. destruct st as [t [x|]]; simpl;
      rewrite ?app_nil_r; reflexivity.
  - simpl. unfold bind, f_write. rewrite IH. simpl. f_equal. f_equal.
    destruct rest; destruct (written st); simpl;
      rewrite <- ?app_assoc; simpl; rewrite ?app_nil_r; reflexivity.
Qed.

Lemma main_run (output_file : pystr) (st : State) :
  main w persona data_directory output_file st =
  if client_ok w then
    match generate_training_data w persona data_directory st with
    | (inl e, st') => (inl e, st')
    | (inr data, st') =>
      if open_write w output_file then
        (inr tt,
         {| trace := trace st';
            written :=
              Some (flat_map (fun e => json_dumps e ++ [10%N]) data) |})
      else (inl (OutputOpenError output_file), st')
    end
  else (inl ClientError, st).
Proof.
  unfold main, bind, OpenAI, open_w.
  destruct (client_ok w); [|reflexivity]. unfold ret.
  destruct (generate_training_data w persona data_directory st)
    as [[e|data] st']; [reflexivity|].
  destruct (open_write w output_file); [|reflexivity].
  rewrite write_entries_run. simpl. destruct data; reflexivity.
Qed.

End Loop.

(** ** Two environments *)

Section TwoWorlds.

Variables w1 w2 : World.
Variable persona data_directory : pystr.


Lemma process_filenames_agree (names : list pystr) :
  forall acc st,
    agree_from w1 w2 data_directory (calls_made (trace st)) names ->
    process_filenames w1 persona data_directory names acc st =
    process_filenames w2 persona data_directory names acc st.
Proof.
  induction names as [|f rest IH]; intros acc st H; [reflexivity|].
  destruct (is_txt f) eqn:Hf.
  - rewrite !process_filenames_txt by exact Hf.
    rewrite !process_text_file_run.
    destruct (H 0 f) as [Ht Hc]; [simpl; rewrite Hf; reflexivity|].
    rewrite <- Ht. destruct (file_text w1 (os_path_join data_directory f)) as [text|]; [|reflexivity].
    cbv zeta. specialize (Hc text eq_refl). rewrite Nat.add_0_r in Hc.
    rewrite <- Hc.
    destruct (chat_completion w1 _ _); try reflexivity.
    apply IH. intros i g Hg. simpl.
    rewrite !calls_made_app; simpl. rewrite Nat.add_0_r, Nat.add_1_r.
    replace (S (calls_made (trace st)) + i)
      with (calls_made (trace st) + S i) by lia.
    apply H. simpl; rewrite Hf; exact Hg.
  - rewrite !process_filenames_other by exact Hf.
    apply IH. intros i g Hg. apply H. simpl; rewrite Hf; exact Hg.
Qed.

End TwoWorlds.

(** ** The record of one file *)

Lemma messages_of_data_entry (persona query response : pystr) :
  messages_of (data_entry persona query response) =
  Some [(str "system", persona); (str "user", query);
        (str "assistant", response)].
Proof. reflexivity. Qed.

(** C1, as stated, fails: in [blank_world] the service answers with
    whitespace only, and the run succeeds and writes a record whose user
    query is empty. *)
Lemma blank_answer_counterexample :
  chat_completion blank_world 0 (chat_request (str "Hello world"))
    = Content [32; 32; 10]%N /\
  forallb isspace [32; 32; 10]%N = true /\
  exists st,
    main blank_world Bob (str "data") (str "out.jsonl") initial = (inr tt, st) /\
    written st =
      Some (json_dumps (data_entry Bob [] (str "Hello world")) ++ [10%N]).
Proof.
  split; [reflexivity|]. split; [reflexivity|].
  eexists; split; vm_compute; reflexivity.
Qed.

(** C1 (amended): when the service answers a file's call with an empty or
    whitespace-only string, processing the file does not fail: the record
    is built, with the empty string as user query. *)
Theorem blank_answer_gives_empty_query
  (w : World) (persona file_path : pystr) (st : State)
  (text answer : pystr) :
  file_text w file_path = Some text ->
  chat_completion w (calls_made (trace st))
    (chat_request (universal_newlines text)) = Content answer ->
  forallb isspace answer = true ->
  exists st',
    _process_text_file w persona file_path st =
      (inr (data_entry persona [] (universal_newlines text)), st') /\
    messages_of (data_entry persona [] (universal_newlines text)) =
      Some [(str "system", persona); (str "user", []);
            (str "assistant", universal_newlines text)].
Proof.
  intros Ht Hc Hs. rewrite process_text_file_run, Ht. cbv zeta.
  rewrite Hc, (strip_all_space _ Hs).
  eexists; split; reflexivity.
Qed.

Lemma blank_answer_gives_empty_query_witness :
  exists st',
    _process_text_file blank_world Bob (str "data/a.txt") initial =
      (inr (data_entry Bob [] (str "Hello world")), st') /\
    messages_of (data_entry Bob [] (str "Hello world")) =
      Some [(str "system", Bob); (str "user", []);
            (str "assistant", str "Hello world")].
Proof.
  apply (@blank_answer_gives_empty_query blank_world Bob (str "data/a.txt")
           initial (str "Hello world") [32; 32; 10]%N); reflexivity.
Defined.

(** C2, as stated, fails: in [crlf_world] the file holds "a\r\nb\r\n" and
    the assistant message of its record holds "a\nb\n". *)
Lemma crlf_counterexample :
  file_text crlf_world (str "data/a.txt") = Some [97; 13; 10; 98; 13; 10]%N /\
  exists entry st,
    _process_text_file crlf_world Bob (str "data/a.txt") initial
      = (inr entry, st) /\
    messages_of entry =
      Some [(str "system", Bob); (str "user", str "Q");
            (str "assistant", [97; 10; 98; 10]%N)] /\
    [97; 10; 98; 10]%N <> [97; 13; 10; 98; 13; 10]%N.
Proof.
  split; [reflexivity|].
  eexists; eexists; split; [vm_compute; reflexivity|].
  split; [reflexivity | discriminate].
Qed.

(** C2 (amended): the record of a file with text R under persona P has
    exactly the three messages system, user, assistant, in this order; the
    system content is P and the assistant content is R as a text-mode read
    returns it, that is with every "\r\n" and every other "\r" turned into
    "\n" and nothing trimmed.  It is R itself when R has no carriage
    return. *)
Theorem record_has_three_messages
  (w : World) (persona file_path : pystr) (st st' : State)
  (text : pystr) (entry : pyval) :
  file_text w file_path = Some text ->
  _process_text_file w persona file_path st = (inr entry, st') ->
  exists query,
    entry = data_entry persona query (universal_newlines text) /\
    messages_of entry =
      Some [(str "system", persona); (str "user", query);
            (str "assistant", universal_newlines text)] /\
    (~ In 13%N text -> universal_newlines text = text).
Proof.
  intros Ht H. rewrite process_text_file_run, Ht in H. cbv zeta in H.
  destruct (chat_completion w _ _) as [| |answer]; try discriminate.
  inversion H; subst. exists (strip answer).
  split; [reflexivity|]. split; [reflexivity|].
  apply universal_newlines_id.
Qed.

Lemma record_has_three_messages_witness :
  exists query,
    data_entry Bob (str "What should I say?") (str "Hello world")
      = data_entry Bob query (universal_newlines (str "Hello world")) /\
    messages_of (data_entry Bob (str "What should I say?") (str "Hello world")) =
      Some [(str "system", Bob); (str "user", query);
            (str "assistant", universal_newlines (str "Hello world"))] /\
    (~ In 13%N (str "Hello world") ->
     universal_newlines (str "Hello world") = str "Hello world").
Proof.
  apply (@record_has_three_messages demo_world Bob (str "data/a.txt") initial
           (logged (ChatCompletion (chat_request (str "Hello world")))
              (logged (OpenRead (str "data/a.txt")) initial))
           (str "Hello world")); reflexivity.
Defined.

(** C5: the user message of a file's record holds the text the service
    returned for that file with the whitespace at its two ends removed:
    the returned text is that content between two runs of whitespace, and
    the content neither starts nor ends with whitespace. *)
Theorem query_is_stripped_answer
  (w : World) (persona file_path : pystr) (st : State)
  (text answer : pystr) :
  file_text w file_path = Some text ->
  chat_completion w (calls_made (trace st))
    (chat_request (universal_newlines text)) = Content answer ->
  exists st' query lead trail,
    _process_text_file w persona file_path st =
      (inr (data_entry persona query (universal_newlines text)), st') /\
    messages_of (data_entry persona query (universal_newlines text)) =
      Some [(str "system", persona); (str "user", query);
            (str "assistant", universal_newlines text)] /\
    query = strip answer /\
    answer = lead ++ query ++ trail /\
    forallb isspace lead = true /\ forallb isspace trail = true /\
    trimmed query /\
    (forall l m t, forallb isspace l = true -> forallb isspace t = true ->
       trimmed m -> answer = l ++ m ++ t -> m = query).
Proof.
  intros Ht Hc. rewrite process_text_file_run, Ht. cbv zeta. rewrite Hc.
  destruct (strip_split answer) as [lead [trail [E [Hl Hr]]]].
  eexists; exists (strip answer), lead, trail.
  split; [reflexivity|]. split; [reflexivity|]. split; [reflexivity|].
  split; [exact E|]. split; [exact Hl|]. split; [exact Hr|].
  split; [apply strip_trimmed|].
  intros l m t Hl' Ht' Hm ->. symmetry; apply strip_unique; assumption.
Qed.

Lemma query_is_stripped_answer_witness :
  exists st' query lead trail,
    _process_text_file demo_world Bob (str "data/a.txt") initial =
      (inr (data_entry Bob query (universal_newlines (str "Hello world"))), st') /\
    messages_of (data_entry Bob query (universal_newlines (str "Hello world"))) =
      Some [(str "system", Bob); (str "user", query);
            (str "assistant", universal_newlines (str "Hello world"))] /\
    query = strip (str " What should I say? ") /\
    str " What should I say? " = lead ++ query ++ trail /\
    forallb isspace lead = true /\ forallb isspace trail = true /\
    trimmed query /\
    (forall l m t, forallb isspace l = true -> forallb isspace t = true ->
       trimmed m -> str " What should I say? " = l ++ m ++ t -> m = query).
Proof.
  apply (@query_is_stripped_answer demo_world Bob (str "data/a.txt") initial
           (str "Hello world") (str " What should I say? ")); reflexivity.
Defined.

(** ** The run *)

(** C7: when the input directory cannot be listed (it does not exist, or
    it is not a directory), building the dataset fails with the error of
    the listing, and the run ends in an error without a single call to
    the service and without opening the output file. *)
Theorem missing_directory_fails_first
  (w : World) (persona data_dir output_file : pystr) :
  listdir w data_dir = None ->
  generate_training_data w persona data_dir initial =
    (inl (ListdirError data_dir), logged (Listdir data_dir) initial) /\
  exists st,
    main w persona data_dir output_file initial =
      (inl (if client_ok w then ListdirError data_dir else ClientError), st) /\
    calls_made (trace st) = 0 /\
    (forall p, ~ In (OpenRead p) (trace st)) /\
    written st = None.
Proof.
  intros H. rewrite main_run, generate_training_data_run, H.
  split; [reflexivity|].
  destruct (client_ok w); eexists; (split; [reflexivity|]);
    simpl; (split; [reflexivity|]); (split; [|reflexivity]);
    intros p K; simpl in K; intuition discriminate.
Qed.

Lemma missing_directory_fails_first_witness :
  generate_training_data missing_dir_world Bob (str "data") initial =
    (inl (ListdirError (str "data")), logged (Listdir (str "data")) initial) /\
  exists st,
    main missing_dir_world Bob (str "data") (str "out.jsonl") initial =
      (inl (if client_ok missing_dir_world
            then ListdirError (str "data") else ClientError), st) /\
    calls_made (trace st) = 0 /\
    (forall p, ~ In (OpenRead p) (trace st)) /\
    written st = None.
Proof.
  apply (@missing_directory_fails_first missing_dir_world Bob (str "data")
           (str "out.jsonl")); reflexivity.
Defined.

(** C4: the run stops at the first qualifying file whose processing fails,
    be it the read or the service call: the run ends with that file's
    error, the later entries are not touched, and the records built for
    the earlier files are written nowhere, the output file not even being
    opened. *)
Theorem first_failure_aborts_and_writes_nothing
  (w : World) (persona data_dir output_file : pystr)
  (pre post : list pystr) (f : pystr)
  (earlier : list pyval) (st1 st2 : State) (e : error) :
  client_ok w = true ->
  listdir w data_dir = Some (pre ++ f :: post) ->
  is_txt f = true ->
  process_filenames w persona data_dir pre []
    (logged (Listdir data_dir) initial) = (inr earlier, st1) ->
  _process_text_file w persona (os_path_join data_dir f) st1 = (inl e, st2) ->
  generate_training_data w persona data_dir initial = (inl e, st2) /\
  main w persona data_dir output_file initial = (inl e, st2) /\
  written st2 = None.
Proof.
  intros Hc Hl Hf Hpre Hfail.
  assert (G : generate_training_data w persona data_dir initial = (inl e, st2)).
  { rewrite generate_training_data_run, Hl, process_filenames_app, Hpre.
    rewrite process_filenames_txt by exact Hf. rewrite Hfail. reflexivity. }
  split; [exact G|]. rewrite main_run, Hc, G. split; [reflexivity|].
  rewrite generate_training_data_run, Hl in G.
  apply process_filenames_written in G. exact G.
Qed.

Lemma first_failure_aborts_and_writes_nothing_witness :
  exists st2,
    generate_training_data unreadable_world Bob (str "data") initial
      = (inl (FileReadError (str "data/x.txt")), st2) /\
    main unreadable_world Bob (str "data") (str "out.jsonl") initial
      = (inl (FileReadError (str "data/x.txt")), st2) /\
    written st2 = None.
Proof.
  eexists.
  apply (@first_failure_aborts_and_writes_nothing unreadable_world Bob
           (str "data") (str "out.jsonl") [str "a.txt"] [str "c.txt"]
           (str "x.txt")
           [data_entry Bob (str "Q") (str "Hello world")]
           (logged (ChatCompletion (chat_request (str "Hello world")))
              (logged (OpenRead (str "data/a.txt"))
                 (logged (Listdir (str "data")) initial))));
    reflexivity.
Defined.

(** C9: an entry whose name ends in ".txt" is selected whatever it is; if
    it cannot be opened and decoded (a directory of that name, bytes that
    are not UTF-8), the run does not skip it but fails: with the read
    error of that entry when the entries before it went through, and
    without a service call for it. *)
Theorem unreadable_txt_entry_aborts
  (w : World) (persona data_dir : pystr)
  (pre post : list pystr) (f : pystr) :
  listdir w data_dir = Some (pre ++ f :: post) ->
  is_txt f = true ->
  file_text w (os_path_join data_dir f) = None ->
  (exists e st, generate_training_data w persona data_dir initial = (inl e, st)) /\
  (forall earlier st1,
     process_filenames w persona data_dir pre []
       (logged (Listdir data_dir) initial) = (inr earlier, st1) ->
     generate_training_data w persona data_dir initial =
       (inl (FileReadError (os_path_join data_dir f)),
        logged (OpenRead (os_path_join data_dir f)) st1)).
Proof.
  intros Hl Hf Ht.
  assert (K : forall acc st1,
            process_filenames w persona data_dir (f :: post) acc st1 =
            (inl (FileReadError (os_path_join data_dir f)),
             logged (OpenRead (os_path_join data_dir f)) st1)).
  { intros acc st1. rewrite process_filenames_txt by exact Hf.
    rewrite process_text_file_run, Ht. reflexivity. }
  rewrite generate_training_data_run, Hl, process_filenames_app. split.
  - destruct (process_filenames w persona data_dir pre []
                (logged (Listdir data_dir) initial)) as [[e|acc] st1].
    + exists e, st1; reflexivity.
    + rewrite K. eexists; eexists; reflexivity.
  - intros earlier st1 H. rewrite H. apply K.
Qed.

Lemma unreadable_txt_entry_aborts_witness :
  (exists e st,
     generate_training_data unreadable_world Bob (str "data") initial
       = (inl e, st)) /\
  (forall earlier st1,
     process_filenames unreadable_world Bob (str "data") [str "a.txt"] []
       (logged (Listdir (str "data")) initial) = (inr earlier, st1) ->
     generate_training_data unreadable_world Bob (str "data") initial =
       (inl (FileReadError (os_path_join (str "data") (str "x.txt"))),
        logged (OpenRead (os_path_join (str "data") (str "x.txt"))) st1)).
Proof.
  apply (@unreadable_txt_entry_aborts unreadable_world Bob (str "data")
           [str "a.txt"] [str "c.txt"] (str "x.txt")); reflexivity.
Defined.

(** C6: the entries of the listing whose names do not end in ".txt" are
    left out.  The run is the run over the qualifying names alone; the
    directory is listed once and nothing below it; no other entry is ever
    opened; what the other entries hold changes nothing; and a run that
    succeeds has as many records as there are qualifying names. *)
Theorem other_entries_are_excluded
  (w : World) (persona data_dir : pystr) (names : list pystr) :
  listdir w data_dir = Some names ->
  generate_training_data w persona data_dir initial =
    process_filenames w persona data_dir (filter is_txt names) []
      (logged (Listdir data_dir) initial) /\
  (forall r st, generate_training_data w persona data_dir initial = (r, st) ->
     (forall p, In (Listdir p) (trace st) -> p = data_dir) /\
     (forall p, In (OpenRead p) (trace st) ->
        exists f, In f names /\ is_txt f = true /\
                  p = os_path_join data_dir f)) /\
  (forall w2,
     listdir w2 data_dir = Some names ->
     (forall k req, chat_completion w2 k req = chat_completion w k req) ->
     (forall f, In f names -> is_txt f = true ->
        file_text w2 (os_path_join data_dir f)
        = file_text w (os_path_join data_dir f)) ->
     generate_training_data w2 persona data_dir initial =
     generate_training_data w persona data_dir initial) /\
  (forall entries st,
     generate_training_data w persona data_dir initial = (inr entries, st) ->
     length entries = length (filter is_txt names)).
Proof.
  intros Hl. rewrite generate_training_data_run, Hl.
  split; [apply process_filenames_filter|]. split; [|split].
  - intros r st H. split; intros p Hp.
    + destruct (@process_filenames_trace w persona data_dir names _ _ _ _ _ H Hp)
        as [K|[f [_ [_ [K|[text [_ K]]]]]]]; try discriminate K.
      simpl in K. destruct K as [K|[]]. congruence.
    + destruct (@process_filenames_trace w persona data_dir names _ _ _ _ _ H Hp)
        as [K|[f [K1 [K2 [K|[text [_ K]]]]]]]; try discriminate K.
      * simpl in K. destruct K as [K|[]]. discriminate K.
      * exists f; repeat split; auto. congruence.
  - intros w2 Hl2 Hc Ht. rewrite generate_training_data_run, Hl2.
    apply process_filenames_agree. intros i f Hi.
    apply nth_error_In, filter_In in Hi as [Hi Hf]. split.
    + apply Ht; assumption.
    + intros text _. apply Hc.
  - intros entries st H. apply process_filenames_ok in H as [new [-> Hn]].
    simpl. clear Hl. generalize dependent new.
    generalize (calls_made (trace (logged (Listdir data_dir) initial))).
    induction (filter is_txt names) as [|f fs IH]; intros k [|e es] H;
      simpl in *; try contradiction; [reflexivity|].
    f_equal. destruct H as [_ H]. eapply IH, H.
Qed.

Lemma other_entries_are_excluded_witness :
  generate_training_data demo_world Bob (str "data") initial =
    process_filenames demo_world Bob (str "data")
      (filter is_txt [str "a.txt"; str "b.md"]) []
      (logged (Listdir (str "data")) initial).
Proof.
  exact (proj1 (@other_entries_are_excluded demo_world Bob (str "data")
                  [str "a.txt"; str "b.md"] eq_refl)).
Defined.

(** C10: the run is a function of its inputs.  Two environments that agree
    on the client, on the listing of the directory, on the text of each
    qualifying file, on the answer to each call made for such a file and
    on the output file give the same run: the same result, the same trace
    and the same output.  In a run that succeeds, each record is the
    record of its own file: persona, the file's text, and the answer to
    the call made for that file. *)
Theorem run_depends_on_its_inputs_only
  (w1 w2 : World) (persona data_dir output_file : pystr)
  (names : list pystr) :
  client_ok w1 = client_ok w2 ->
  listdir w1 data_dir = Some names ->
  listdir w2 data_dir = Some names ->
  agree_from w1 w2 data_dir 0 names ->
  open_write w1 output_file = open_write w2 output_file ->
  generate_training_data w1 persona data_dir initial =
    generate_training_data w2 persona data_dir initial /\
  main w1 persona data_dir output_file initial =
    main w2 persona data_dir output_file initial /\
  (forall entries st,
     generate_training_data w1 persona data_dir initial = (inr entries, st) ->
     entries_from w1 persona data_dir 0 (filter is_txt names) entries).
Proof.
  intros Hc H1 H2 Ha Ho.
  assert (G : generate_training_data w1 persona data_dir initial =
              generate_training_data w2 persona data_dir initial).
  { rewrite !generate_training_data_run, H1, H2.
    apply process_filenames_agree. exact Ha. }
  split; [exact G|]. split.
  - rewrite !main_run, <- Hc, <- G, <- Ho. reflexivity.
  - intros entries st H. rewrite generate_training_data_run, H1 in H.
    apply process_filenames_ok in H as [new [-> Hn]]. exact Hn.
Qed.

Lemma demo_worlds_agree :
  agree_from demo_world demo_world_variant (str "data") 0
    [str "a.txt"; str "b.md"].
Proof.
  intros [|[|i]] f H; simpl in H; try discriminate H.
  inversion H; subst. split; [reflexivity | intros text _; reflexivity].
Qed.

Lemma run_depends_on_its_inputs_only_witness :
  generate_training_data demo_world Bob (str "data") initial =
    generate_training_data demo_world_variant Bob (str "data") initial /\
  main demo_world Bob (str "data") (str "out.jsonl") initial =
    main demo_world_variant Bob (str "data") (str "out.jsonl") initial /\
  (forall entries st,
     generate_training_data demo_world Bob (str "data") initial
       = (inr entries, st) ->
     entries_from demo_world Bob (str "data") 0
       (filter is_txt [str "a.txt"; str "b.md"]) entries).
Proof.
  apply (@run_depends_on_its_inputs_only demo_world demo_world_variant Bob
           (str "data") (str "out.jsonl") [str "a.txt"; str "b.md"]);
    try reflexivity.
  exact demo_worlds_agree.
Defined.

(** ** The encoder and the decoder on strings *)

Lemma hexdigit_cases (d : N) :
  (d < 16)%N ->
  hexval (hexdigit d) = Some d /\ printable (hexdigit d).
Proof.
  intros H. unfold hexdigit, hexval, printable.
  destruct (N.ltb_spec d 10).
  - replace ((48 <=? 48 + d) && (48 + d <=? 57))%N with true.
    + split; [f_equal; lia | lia].
    + symmetry; apply andb_true_iff; split; apply N.leb_le; lia.
  - replace ((48 <=? 87 + d) && (87 + d <=? 57))%N with false.
    + replace ((97 <=? 87 + d) && (87 + d <=? 102))%N with true.
      * split; [f_equal; lia | lia].
      * symmetry; apply andb_true_iff; split; apply N.leb_le; lia.
    + symmetry; apply andb_false_iff; right; apply N.leb_gt; lia.
Qed.

Lemma hex4_digits (n : N) :
  (n < 65536)%N ->
  (4096 * (n / 4096 mod 16) + 256 * (n / 256 mod 16)
   + 16 * (n / 16 mod 16) + n mod 16 = n)%N.
Proof.
  intros H.
  pose proof (N.div_mod n 16 ltac:(lia)).
  pose proof (N.div_mod (n / 16) 16 ltac:(lia)).
  pose proof (N.div_mod (n / 16 / 16) 16 ltac:(lia)).
  rewrite !N.Div0.div_div in *. simpl (16 * 16)%N in *.
  simpl (256 * 16)%N in *.
  assert (n / 4096 < 16)%N by (apply N.Div0.div_lt_upper_bound; lia).
  rewrite (N.mod_small (n / 4096) 16) by assumption.
  pose proof (N.mod_lt n 16 ltac:(lia)).
  pose proof (N.mod_lt (n / 16) 16 ltac:(lia)).
  pose proof (N.mod_lt (n / 256) 16 ltac:(lia)).
  lia.
Qed.

Lemma decode_hex4 (n : N) (r : pystr) :
  (n < 65536)%N -> decode_uXXXX (hex4 n ++ r) = Some (n, r).
Proof.
  intros H. unfold hex4, decode_uXXXX. simpl app.
  assert (K : forall x, hexval (hexdigit (x mod 16)) = Some (x mod 16)%N).
  { intros x. apply hexdigit_cases, N.mod_lt. discriminate. }
  cbv iota beta. rewrite !K, hex4_digits by exact H. reflexivity.
Qed.

Lemma hex4_printable (n : N) : Forall printable (hex4 n).
Proof.
  unfold hex4.
  repeat constructor; apply hexdigit_cases, N.mod_lt; lia.
Qed.

Lemma land_shifted_low (h l : N) :
  (l < 1024)%N -> N.land (h * 1024) l = 0%N.
Proof.
  intros H. change 1024%N with (2 ^ 10)%N in *.
  rewrite <- N.shiftl_mul_pow2.
  rewrite <- (N.mod_small l (2 ^ 10)) by exact H.
  rewrite <- N.land_ones.
  apply N.bits_inj; intros i.
  rewrite !N.land_spec, N.bits_0.
  destruct (N.lt_ge_cases i 10) as [Hi|Hi].
  - rewrite N.shiftl_spec_low by exact Hi. reflexivity.
  - rewrite N.ones_spec_high by exact Hi.
    rewrite !andb_false_r. reflexivity.
Qed.

Lemma lor_shifted_low (h l : N) :
  (l < 1024)%N -> N.lor (h * 1024) l = (h * 1024 + l)%N.
Proof.
  intros H. pose proof (land_shifted_low h H) as K.
  rewrite (N.add_nocarry_lxor _ _ K). symmetry. apply N.lxor_lor, K.
Qed.

(** The surrogate pair the encoder writes for a character beyond the
    basic plane. *)
Lemma surrogate_pair (c : N) :
  (0x10000 <= c < 0x110000)%N ->
  let n := (c - 0x10000)%N in
  N.lor 0xd800 (N.land (N.shiftr n 10) 0x3ff) = (0xd800 + n / 1024)%N /\
  N.lor 0xdc00 (N.land n 0x3ff) = (0xdc00 + n mod 1024)%N /\
  (n / 1024 < 1024)%N /\ (n mod 1024 < 1024)%N /\
  (0x10000 + N.lor (N.shiftl (n / 1024) 10) (n mod 1024) = c)%N.
Proof.
  intros H n.
  assert (Hn : (n < 1024 * 1024)%N) by (unfold n; lia).
  assert (Hq : (n / 1024 < 1024)%N)
    by (apply N.Div0.div_lt_upper_bound; exact Hn).
  assert (Hr : (n mod 1024 < 1024)%N) by (apply N.mod_lt; discriminate).
  change 0x3ff%N with (N.ones 10).
  rewrite !N.land_ones, N.shiftr_div_pow2, N.shiftl_mul_pow2.
  change (2 ^ 10)%N with 1024%N.
  rewrite (N.mod_small (n / 1024) 1024) by exact Hq.
  change 0xd800%N with (54 * 1024)%N.
  change 0xdc00%N with (55 * 1024)%N.
  rewrite !lor_shifted_low by assumption.
  repeat split; try assumption.
  pose proof (N.div_mod n 1024 ltac:(discriminate)).
  unfold n in *. lia.
Qed.

Lemma next_item_plain (c : N) (X : pystr) :
  (32 <= c)%N -> c <> 34%N -> c <> 92%N -> next_item (c :: X) = Char c X.
Proof.
  intros H1 H2 H3. unfold next_item.
  rewrite (proj2 (N.eqb_neq c 34) H2), (proj2 (N.eqb_neq c 92) H3).
  rewrite (proj2 (N.ltb_ge c 32) H1). reflexivity.
Qed.

Lemma next_item_backslash_u (r1 : pystr) :
  next_item (92%N :: 117%N :: r1) =
  match decode_uXXXX r1 with
  | None => Invalid
  | Some (uni, r2) =>
    match r2 with
    | b :: u :: r3 =>
      if is_high_surrogate uni && (b =? 92)%N && (u =? 117)%N then
        match decode_uXXXX r3 with
        | None => Invalid
        | Some (uni2, r4) =>
          if is_low_surrogate uni2 then
            Char (0x10000 +
                  N.lor (N.shiftl (uni - 0xd800) 10) (uni2 - 0xdc00))%N r4
          else Char uni r2
        end
      else Char uni r2
    | _ => Char uni r2
    end
  end.
Proof. reflexivity. Qed.

Lemma next_item_u (uni : N) (X : pystr) :
  (uni < 65536)%N ->
  (is_high_surrogate uni = true -> low_escape_ahead X = false) ->
  next_item (u_escape uni ++ X) = Char uni X.
Proof.
  intros H Hx.
  change (u_escape uni ++ X) with (92%N :: 117%N :: (hex4 uni ++ X)).
  rewrite next_item_backslash_u, decode_hex4 by exact H.
  destruct X as [|b [|u r]]; try reflexivity.
  destruct (is_high_surrogate uni); [|reflexivity].
  specialize (Hx eq_refl). unfold low_escape_ahead in Hx.
  destruct (b =? 92)%N; [|reflexivity].
  destruct (u =? 117)%N; [|reflexivity].
  simpl in Hx |- *.
  destruct (decode_uXXXX r) as [[uni2 r4]|]; [|discriminate].
  rewrite Hx. reflexivity.
Qed.

Lemma next_item_pair (s1 s2 : N) (X : pystr) :
  (s1 < 65536)%N -> (s2 < 65536)%N ->
  is_high_surrogate s1 = true -> is_low_surrogate s2 = true ->
  next_item (u_escape s1 ++ u_escape s2 ++ X) =
  Char (0x10000 + N.lor (N.shiftl (s1 - 0xd800) 10) (s2 - 0xdc00))%N X.
Proof.
  intros H1 H2 Hh Hl.
  change (u_escape s1 ++ u_escape s2 ++ X)
    with (92%N :: 117%N :: (hex4 s1 ++ 92%N :: 117%N :: (hex4 s2 ++ X))).
  rewrite next_item_backslash_u, decode_hex4 by exact H1.
  rewrite Hh. change ((92 =? 92)%N) with true.
  change ((117 =? 117)%N) with true. cbv iota beta. simpl andb. cbv iota.
  rewrite decode_hex4 by exact H2. rewrite Hl. reflexivity.
Qed.

Lemma next_item_escape_char (c : N) (X : pystr) :
  (c < 0x110000)%N ->
  (is_high_surrogate c = true -> low_escape_ahead X = false) ->
  next_item (escape_char c ++ X) = Char c X.
Proof.
  intros Hc Hx. unfold escape_char.
  destruct (N.eqb_spec c 92) as [->|N92]; [reflexivity|].
  destruct (N.eqb_spec c 34) as [->|N34]; [reflexivity|].
  destruct (N.leb_spec 32 c) as [L32|L32]; simpl andb.
  - destruct (N.leb_spec c 126) as [L126|L126].
    + apply next_item_plain; assumption.
    + repeat match goal with
             | |- context [N.eqb c ?k] =>
               destruct (N.eqb_spec c k); [lia|]
             end.
      destruct (N.ltb_spec c 0x10000) as [Lu|Lu].
      * apply next_item_u; [exact Lu | exact Hx].
      * destruct (@surrogate_pair c ltac:(lia)) as [E1 [E2 [Hq [Hr E]]]].
        cbv zeta. rewrite E1, E2, <- app_assoc.
        clear E1 E2. revert Hq Hr E.
        generalize ((c - 65536) / 1024)%N, ((c - 65536) mod 1024)%N.
        intros q r Hq Hr E.
        rewrite next_item_pair.
        -- f_equal.
           rewrite (N.add_comm 55296), (N.add_comm 56320), !N.add_sub.
           exact E.
        -- lia.
        -- lia.
        -- unfold is_high_surrogate. apply andb_true_iff.
           split; apply N.leb_le; lia.
        -- unfold is_low_surrogate. apply andb_true_iff.
           split; apply N.leb_le; lia.
  - destruct (N.eqb_spec c 8) as [->|N8]; [reflexivity|].
    destruct (N.eqb_spec c 12) as [->|N12]; [reflexivity|].
    destruct (N.eqb_spec c 10) as [->|N10]; [reflexivity|].
    destruct (N.eqb_spec c 13) as [->|N13]; [reflexivity|].
    destruct (N.eqb_spec c 9) as [->|N9]; [reflexivity|].
    destruct (N.ltb_spec c 0x10000) as [Lu|Lu]; [|lia].
    apply next_item_u; [exact Lu | exact Hx].
Qed.

Lemma low_escape_ahead_u (r : pystr) :
  low_escape_ahead (92%N :: 117%N :: r) =
  match decode_uXXXX r with
  | Some (uni, _) => is_low_surrogate uni
  | None => true
  end.
Proof. reflexivity. Qed.

Lemma low_escape_ahead_quote (rest : pystr) :
  low_escape_ahead (34%N :: rest) = false.
Proof. destruct rest; reflexivity. Qed.

Lemma low_escape_ahead_escape_char (d : N) (Y : pystr) :
  (d < 0x110000)%N -> is_low_surrogate d = false ->
  low_escape_ahead (escape_char d ++ Y) = false.
Proof.
  intros Hd Hl. unfold escape_char.
  destruct (N.eqb_spec d 92) as [->|N92]; [reflexivity|].
  destruct (N.eqb_spec d 34) as [->|N34]; [reflexivity|].
  assert (U : (d < 0x10000)%N ->
              low_escape_ahead (u_escape d ++ Y) = false).
  { intros Lu.
    change (u_escape d ++ Y) with (92%N :: 117%N :: (hex4 d ++ Y)).
    rewrite low_escape_ahead_u, decode_hex4 by exact Lu. exact Hl. }
  assert (P : (0x10000 <= d)%N ->
              low_escape_ahead
                ((let n := (d - 0x10000)%N in
                  let s1 := N.lor 0xd800 (N.land (N.shiftr n 10) 0x3ff) in
                  let s2 := N.lor 0xdc00 (N.land n 0x3ff) in
                  u_escape s1 ++ u_escape s2) ++ Y) = false).
  { intros Lu.
    destruct (@surrogate_pair d ltac:(lia)) as [E1 [E2 [Hq [Hr _]]]].
    cbv zeta. rewrite E1, <- app_assoc. clear E1 E2. revert Hq.
    generalize ((d - 65536) / 1024)%N. intros q Hq.
    change (u_escape (55296 + q) ++ ?Z)
      with (92%N :: 117%N :: (hex4 (55296 + q) ++ Z)).
    rewrite low_escape_ahead_u, decode_hex4 by lia.
    unfold is_low_surrogate. apply andb_false_iff. left.
    apply N.leb_gt. lia. }
  destruct (N.leb_spec 32 d) as [L32|L32]; simpl andb.
  - destruct (N.leb_spec d 126) as [L126|L126].
    + destruct Y as [|u r]; [reflexivity|].
      simpl. rewrite (proj2 (N.eqb_neq d 92) N92). reflexivity.
    + repeat match goal with
             | |- context [N.eqb d ?k] =>
               destruct (N.eqb_spec d k); [lia|]
             end.
      destruct (N.ltb_spec d 0x10000) as [Lu|Lu]; auto.
  - destruct (N.eqb_spec d 8) as [->|N8]; [reflexivity|].
    destruct (N.eqb_spec d 12) as [->|N12]; [reflexivity|].
    destruct (N.eqb_spec d 10) as [->|N10]; [reflexivity|].
    destruct (N.eqb_spec d 13) as [->|N13]; [reflexivity|].
    destruct (N.eqb_spec d 9) as [->|N9]; [reflexivity|].
    destruct (N.ltb_spec d 0x10000) as [Lu|Lu]; [auto|lia].
Qed.

Lemma text_ok_cons (c : N) (r : pystr) :
  text_ok (c :: r) = true ->
  (c < 0x110000)%N /\
  (is_high_surrogate c = true ->
   match r with
   | d :: _ => is_low_surrogate d = false
   | [] => True
   end) /\
  text_ok r = true.
Proof.
  simpl. intros H. apply andb_true_iff in H as [H Hr].
  apply andb_true_iff in H as [Hc Hp].
  split; [apply N.ltb_lt, Hc|]. split; [|exact Hr].
  intros Hh. rewrite Hh in Hp. simpl in Hp.
  destruct r as [|d r']; [exact I|].
  destruct (is_low_surrogate d); [discriminate | reflexivity].
Qed.

Lemma escape_char_length (c : N) : 1 <= length (escape_char c).
Proof.
  unfold escape_char.
  repeat match goal with
         | |- context [if ?b then _ else _] => destruct b
         end; simpl; lia.
Qed.

Lemma flat_map_escape_length (s : pystr) :
  length s <= length (flat_map escape_char s).
Proof.
  induction s as [|c r IH]; simpl; [lia|].
  rewrite length_app. pose proof (escape_char_length c). lia.
Qed.

(** The decoder reads back what the encoder wrote between the quotes. *)
Lemma scanstring_loop_encode (s : pystr) :
  forall fuel rest,
    text_ok s = true -> length s < fuel ->
    scanstring_loop fuel (flat_map escape_char s ++ 34%N :: rest)
    = Some (s, rest).
Proof.
  induction s as [|c r IH]; intros fuel rest Hok Hf.
  - destruct fuel as [|n]; [inversion Hf|]. reflexivity.
  - destruct fuel as [|n]; [inversion Hf|].
    apply text_ok_cons in Hok as [Hc [Hh Hr]].
    simpl flat_map. rewrite <- app_assoc. simpl scanstring_loop.
    rewrite next_item_escape_char; [|exact Hc|].
    + rewrite IH; [reflexivity | exact Hr | simpl in Hf; lia].
    + intros H. specialize (Hh H). destruct r as [|d r'].
      * apply low_escape_ahead_quote.
      * simpl flat_map. rewrite <- app_assoc.
        apply low_escape_ahead_escape_char; [|exact Hh].
        apply text_ok_cons in Hr. tauto.
Qed.

Lemma scanstring_encode (s rest : pystr) :
  text_ok s = true ->
  scanstring (flat_map escape_char s ++ 34%N :: rest) = Some (s, rest).
Proof.
  intros H. unfold scanstring. apply scanstring_loop_encode; [exact H|].
  rewrite length_app. pose proof (flat_map_escape_length s). simpl. lia.
Qed.

Lemma escape_char_printable (c : N) : Forall printable (escape_char c).
Proof.
  unfold escape_char, u_escape.
  repeat match goal with
         | |- context [if (?a =? ?b)%N then _ else _] =>
           destruct (N.eqb_spec a b)
         | |- context [if (?a <? ?b)%N then _ else _] =>
           destruct (N.ltb_spec a b)
         | |- context [(?a <=? ?b)%N] =>
           destruct (N.leb_spec a b); simpl andb
         end;
    cbv zeta;
    repeat (apply Forall_app; split);
    repeat (apply Forall_cons; [unfold printable; lia|]);
    try apply hex4_printable; try apply Forall_nil.
Qed.

Lemma encode_basestring_ascii_printable (s : pystr) :
  Forall printable (encode_basestring_ascii s).
Proof.
  unfold encode_basestring_ascii.
  apply Forall_cons; [unfold printable; lia|].
  apply Forall_app; split; [|apply Forall_cons; [unfold printable; lia | apply Forall_nil]].
  induction s as [|c r IH]; simpl; [constructor|].
  apply Forall_app; split; [apply escape_char_printable | exact IH].
Qed.

(** ** The encoder and the decoder on values *)

(** Induction on values, with the hypothesis for every element of a list
    and every value of a dict. *)
Lemma pyval_nested_ind (P : pyval -> Prop) :
  (forall s, P (PStr s)) ->
  (forall l, Forall P l -> P (PList l)) ->
  (forall items, Forall (fun kv => P (snd kv)) items -> P (PDict items)) ->
  forall v, P v.
Proof.
  intros HS HL HD. fix IH 1. intros [s|l|items].
  - apply HS.
  - apply HL. induction l as [|x r IHr]; constructor; [apply IH | exact IHr].
  - apply HD. induction items as [|[k x] r IHr]; constructor;
      [apply IH | exact IHr].
Qed.

Lemma json_dumps_list (l : list pyval) :
  json_dumps (PList l) =
  91%N :: join (str ", ") (map json_dumps l) ++ [93%N].
Proof. reflexivity. Qed.

Lemma json_dumps_dict (items : list (pystr * pyval)) :
  json_dumps (PDict items) =
  123%N :: join (str ", ") (map dumps_item items) ++ [125%N].
Proof. reflexivity. Qed.

Lemma join_cons2 (sep p q : pystr) (r : list pystr) :
  join sep (p :: q :: r) = p ++ sep ++ join sep (q :: r).
Proof. reflexivity. Qed.

Lemma json_dumps_head (v : pyval) :
  exists c t, json_dumps v = c :: t /\ is_ws c = false /\
              c <> 93%N /\ c <> 125%N.
Proof.
  destruct v as [s|l|items].
  - exists 34%N; eexists; split; [reflexivity|]. repeat split; discriminate.
  - rewrite json_dumps_list. exists 91%N; eexists; split; [reflexivity|].
    repeat split; discriminate.
  - rewrite json_dumps_dict. exists 123%N; eexists; split; [reflexivity|].
    repeat split; discriminate.
Qed.

Lemma skip_ws_dumps (v : pyval) (r : pystr) :
  skip_ws (json_dumps v ++ r) = json_dumps v ++ r.
Proof.
  destruct (json_dumps_head v) as [c [t [E [Hc _]]]].
  rewrite E. simpl. rewrite Hc. reflexivity.
Qed.

Lemma join_printable (sep : pystr) (parts : list pystr) :
  Forall printable sep -> Forall (Forall printable) parts ->
  Forall printable (join sep parts).
Proof.
  intros Hs H. induction H as [|p r Hp Hr IH]; [constructor|].
  destruct r as [|q r]; [exact Hp|].
  rewrite join_cons2. repeat (apply Forall_app; split); assumption.
Qed.

Lemma sep_printable : Forall printable (str ", ").
Proof.
  change (str ", ") with [44; 32]%N.
  repeat (apply Forall_cons; [unfold printable; lia|]). apply Forall_nil. Qed.

(** The encoder writes printable ASCII only. *)
Lemma json_dumps_printable (v : pyval) : Forall printable (json_dumps v).
Proof.
  induction v as [s|l IH|items IH] using pyval_nested_ind.
  - apply encode_basestring_ascii_printable.
  - rewrite json_dumps_list. apply Forall_cons; [unfold printable; lia|].
    apply Forall_app; split; [|apply Forall_cons; [unfold printable; lia | apply Forall_nil]].
    apply join_printable; [apply sep_printable|].
    apply Forall_map. exact IH.
  - rewrite json_dumps_dict. apply Forall_cons; [unfold printable; lia|].
    apply Forall_app; split; [|apply Forall_cons; [unfold printable; lia | apply Forall_nil]].
    apply join_printable; [apply sep_printable|].
    apply Forall_map. eapply Forall_impl; [|exact IH].
    intros [k x] H. unfold dumps_item. simpl fst; simpl snd.
    apply Forall_app; split; [apply encode_basestring_ascii_printable|].
    apply Forall_app; split; [|exact H].
    change (str ": ") with [58; 32]%N. repeat (apply Forall_cons; [unfold printable; lia|]). apply Forall_nil.
Qed.

Lemma join_length (sep : pystr) (parts : list pystr) :
  Forall (fun p => 1 <= length p) parts ->
  length parts <= length (join sep parts).
Proof.
  intros H. induction H as [|p r Hp Hr IH]; [simpl; lia|].
  destruct r as [|q r]; [simpl; lia|].
  rewrite join_cons2, !length_app. simpl length in *. lia.
Qed.

Lemma json_dumps_nonempty (v : pyval) : 1 <= length (json_dumps v).
Proof.
  destruct (json_dumps_head v) as [c [t [E _]]]. rewrite E; simpl; lia.
Qed.

Lemma skip_ws_join (sep : pystr) (y : pyval) (ps : list pystr) (Z : pystr) :
  skip_ws (join sep (json_dumps y :: ps) ++ Z)
  = join sep (json_dumps y :: ps) ++ Z.
Proof.
  destruct ps as [|q r].
  - simpl join. apply skip_ws_dumps.
  - rewrite join_cons2, <- app_assoc. apply skip_ws_dumps.
Qed.

Lemma skip_ws_keep (c : N) (r : pystr) :
  is_ws c = false -> skip_ws (c :: r) = c :: r.
Proof. intros H. simpl. rewrite H. reflexivity. Qed.

Lemma skip_ws_space (r : pystr) : skip_ws (32%N :: r) = skip_ws r.
Proof. reflexivity. Qed.

Section Loops.

Variable scan : pystr -> option (pyval * pystr).

Lemma array_values_S (n : nat) (s : pystr) :
  array_values scan (S n) s =
  match scan s with
  | None => None
  | Some (value, r) =>
    match skip_ws r with
    | [] => None
    | c :: r1 =>
      if (c =? 93)%N then Some ([value], r1)
      else if (c =? 44)%N then
        match array_values scan n (skip_ws r1) with
        | Some (values, r2) => Some (value :: values, r2)
        | None => None
        end
      else None
    end
  end.
Proof. reflexivity. Qed.

Lemma array_values_dumps (xs : list pyval) :
  forall x fuel rest,
    (forall y, In y (x :: xs) ->
       forall r, scan (json_dumps y ++ r) = Some (y, r)) ->
    length (x :: xs) <= fuel ->
    array_values scan fuel
      (join (str ", ") (map json_dumps (x :: xs)) ++ 93%N :: rest)
    = Some (x :: xs, rest).
Proof.
  induction xs as [|y ys IH]; intros x fuel rest Hs Hf;
    (destruct fuel as [|n]; [simpl in Hf; lia|]).
  - simpl join. rewrite array_values_S, (Hs x (or_introl eq_refl)).
    reflexivity.
  - specialize (IH y n rest).
    change (map json_dumps (x :: y :: ys))
      with (json_dumps x :: json_dumps y :: map json_dumps ys).
    rewrite join_cons2, <- !app_assoc.
    rewrite array_values_S, (Hs x (or_introl eq_refl)).
    change (str ", " ++ ?Z) with (44%N :: 32%N :: Z).
    rewrite skip_ws_keep by reflexivity.
    change ((44 =? 93)%N) with false. change ((44 =? 44)%N) with true.
    cbv iota. rewrite skip_ws_space, skip_ws_join.
    change (json_dumps y :: map json_dumps ys)
      with (map json_dumps (y :: ys)).
    rewrite IH; [reflexivity| |simpl in Hf |- *; lia].
    intros z Hz. apply Hs. right; exact Hz.
Qed.

End Loops.

Lemma dumps_item_app (k : pystr) (v : pyval) (Z : pystr) :
  dumps_item (k, v) ++ Z =
  34%N :: flat_map escape_char k ++
  34%N :: 58%N :: 32%N :: json_dumps v ++ Z.
Proof.
  unfold dumps_item, encode_basestring_ascii. simpl fst; simpl snd.
  change (str ": ") with [58; 32]%N.
  rewrite <- !app_assoc. simpl. rewrite <- !app_assoc. reflexivity.
Qed.

Lemma join_item_head (sep : pystr) (kv : pystr * pyval)
  (ps : list pystr) (Z : pystr) :
  exists t, join sep (dumps_item kv :: ps) ++ Z = 34%N :: t.
Proof.
  destruct kv as [k v]. destruct ps as [|q r].
  - simpl join. rewrite dumps_item_app. eexists; reflexivity.
  - rewrite join_cons2, <- app_assoc, dumps_item_app. eexists; reflexivity.
Qed.

Section ObjectLoop.

Variable scan : pystr -> option (pyval * pystr).

Lemma object_pairs_S (n : nat) (s : pystr) :
  object_pairs scan (S n) s =
  match scanstring s with
  | None => None
  | Some (key, r) =>
    match skip_ws r with
    | [] => None
    | c :: r1 =>
      if (c =? 58)%N then
        match scan (skip_ws r1) with
        | None => None
        | Some (value, r2) =>
          match skip_ws r2 with
          | [] => None
          | d :: r3 =>
            if (d =? 125)%N then Some ([(key, value)], r3)
            else if (d =? 44)%N then
              match skip_ws r3 with
              | [] => None
              | q :: r4 =>
                if (q =? 34)%N then
                  match object_pairs scan n r4 with
                  | Some (pairs, r5) => Some ((key, value) :: pairs, r5)
                  | None => None
                  end
                else None
              end
            else None
          end
        end
      else None
    end
  end.
Proof. reflexivity. Qed.

Lemma object_pairs_dumps (kvs : list (pystr * pyval)) :
  forall kv fuel rest,
    (forall p, In p (kv :: kvs) ->
       text_ok (fst p) = true /\
       forall r, scan (json_dumps (snd p) ++ r) = Some (snd p, r)) ->
    length (kv :: kvs) <= fuel ->
    object_pairs scan fuel
      (tl (join (str ", ") (map dumps_item (kv :: kvs)) ++ 125%N :: rest))
    = Some (kv :: kvs, rest).
Proof.
  induction kvs as [|kv2 kvs IH]; intros [k v] fuel rest Hs Hf;
    (destruct fuel as [|n]; [simpl in Hf; lia|]);
    destruct (Hs (k, v) (or_introl eq_refl)) as [Hk Hv];
    simpl fst in Hk; simpl snd in Hv.
  - simpl join. rewrite dumps_item_app. simpl tl.
    rewrite object_pairs_S, scanstring_encode by exact Hk.
    rewrite skip_ws_keep by reflexivity.
    change ((58 =? 58)%N) with true. cbv iota.
    rewrite skip_ws_space, skip_ws_dumps, Hv.
    rewrite skip_ws_keep by reflexivity. reflexivity.
  - specialize (IH kv2 n rest).
    destruct (join_item_head (str ", ") kv2 (map dumps_item kvs)
                (125%N :: rest)) as [t E].
    change (map dumps_item ((k, v) :: kv2 :: kvs))
      with (dumps_item (k, v) :: dumps_item kv2 :: map dumps_item kvs).
    change (map dumps_item (kv2 :: kvs))
      with (dumps_item kv2 :: map dumps_item kvs) in IH.
    rewrite join_cons2, <- !app_assoc, dumps_item_app.
    rewrite E in IH |- *. simpl tl in IH |- *.
    rewrite object_pairs_S, scanstring_encode by exact Hk.
    rewrite skip_ws_keep by reflexivity.
    change ((58 =? 58)%N) with true. cbv iota.
    rewrite skip_ws_space, skip_ws_dumps, Hv.
    change (str ", " ++ ?Z) with (44%N :: 32%N :: Z).
    rewrite skip_ws_keep by reflexivity.
    change ((44 =? 125)%N) with false. change ((44 =? 44)%N) with true.
    cbv iota. rewrite skip_ws_space.
    rewrite skip_ws_keep by reflexivity.
    change ((34 =? 34)%N) with true. cbv iota.
    rewrite IH; [reflexivity| |simpl in Hf |- *; lia].
    intros p Hp. apply Hs. right; exact Hp.
Qed.

End ObjectLoop.

Lemma dict_set_fresh (d : list (pystr * pyval)) (k : pystr) (v : pyval) :
  ~ In k (map fst d) -> dict_set d k v = d ++ [(k, v)].
Proof.
  induction d as [|[k' v'] r IH]; intros H; [reflexivity|].
  simpl in H |- *. destruct (pystr_eqb k' k) eqn:E.
  - apply pystr_eqb_eq in E. tauto.
  - f_equal. apply IH. tauto.
Qed.

Lemma dict_nodup (l : list (pystr * pyval)) :
  NoDup (map fst l) -> dict l = l.
Proof.
  intros H. unfold dict.
  enough (G : forall acc, NoDup (map fst (acc ++ l)) ->
              fold_left (fun d kv => dict_set d (fst kv) (snd kv)) l acc
              = acc ++ l) by (apply (G [] H)).
  clear H. induction l as [|[k v] r IH]; intros acc H; simpl.
  - rewrite app_nil_r. reflexivity.
  - rewrite dict_set_fresh.
    + rewrite IH; rewrite <- app_assoc; [reflexivity | exact H].
    + rewrite map_app in H. simpl in H.
      apply NoDup_remove_2 in H. intros K. apply H.
      apply in_or_app. left; exact K.
Qed.

Lemma wf_list (l : list pyval) : wf_val (PList l) <-> Forall wf_val l.
Proof.
  change (wf_val (PList l))
    with (fold_right (fun x P => wf_val x /\ P) True l).
  induction l as [|x r IH]; simpl.
  - split; auto.
  - rewrite IH. split.
    + intros [H1 H2]; constructor; assumption.
    + intros H; inversion H; auto.
Qed.

Lemma wf_dict (items : list (pystr * pyval)) :
  wf_val (PDict items) <->
  NoDup (map fst items) /\
  Forall (fun kv => text_ok (fst kv) = true /\ wf_val (snd kv)) items.
Proof.
  change (wf_val (PDict items))
    with (NoDup (map fst items) /\
          fold_right
            (fun kv P => text_ok (fst kv) = true /\ wf_val (snd kv) /\ P)
            True items).
  apply and_iff_compat_l.
  induction items as [|kv r IH]; simpl.
  - split; auto.
  - rewrite IH. split.
    + intros [H1 [H2 H3]]; constructor; auto.
    + intros H; inversion H; tauto.
Qed.

Lemma fold_max_le {A} (f : A -> nat) (l : list A) (n : nat) :
  fold_right (fun x m => Nat.max (f x) m) 0 l <= n <->
  Forall (fun x => f x <= n) l.
Proof.
  induction l as [|x r IH]; simpl.
  - split; [constructor | lia].
  - split.
    + intros H; constructor; [lia | apply IH; lia].
    + intros H; inversion H; subst. apply IH in H3. lia.
Qed.

Lemma join_dumps_head (sep : pystr) (y : pyval) (ps : list pystr)
  (Z : pystr) :
  exists c t, join sep (json_dumps y :: ps) ++ Z = c :: t /\ c <> 93%N.
Proof.
  destruct (json_dumps_head y) as [c [t [E [_ [H _]]]]].
  exists c. destruct ps as [|q r].
  - simpl join. rewrite E. eexists; split; [reflexivity | exact H].
  - rewrite join_cons2, E. eexists; split; [reflexivity | exact H].
Qed.

Lemma JSONArray_dumps (scan : pystr -> option (pyval * pystr))
  (l : list pyval) (rest : pystr) :
  (forall y, In y l -> forall r, scan (json_dumps y ++ r) = Some (y, r)) ->
  JSONArray scan (join (str ", ") (map json_dumps l) ++ 93%N :: rest)
  = Some (PList l, rest).
Proof.
  intros Hs. destruct l as [|x xs]; [reflexivity|].
  unfold JSONArray.
  change (map json_dumps (x :: xs))
    with (json_dumps x :: map json_dumps xs).
  rewrite skip_ws_join.
  change (json_dumps x :: map json_dumps xs)
    with (map json_dumps (x :: xs)).
  rewrite array_values_dumps; [|exact Hs|].
  - destruct (join_dumps_head (str ", ") x (map json_dumps xs)
                (93%N :: rest)) as [c [t [E Hc]]].
    change (json_dumps x :: map json_dumps xs)
      with (map json_dumps (x :: xs)) in E.
    rewrite E, (proj2 (N.eqb_neq c 93) Hc). reflexivity.
  - rewrite length_app.
    pose proof (@join_length (str ", ") (map json_dumps (x :: xs))) as K.
    rewrite length_map in K.
    assert (Forall (fun p => 1 <= length p) (map json_dumps (x :: xs))).
    { apply Forall_map, Forall_forall. intros y _.
      apply json_dumps_nonempty. }
    specialize (K H). lia.
Qed.

Lemma JSONObject_dumps (scan : pystr -> option (pyval * pystr))
  (items : list (pystr * pyval)) (rest : pystr) :
  (forall p, In p items ->
     text_ok (fst p) = true /\
     forall r, scan (json_dumps (snd p) ++ r) = Some (snd p, r)) ->
  JSONObject scan (join (str ", ") (map dumps_item items) ++ 125%N :: rest)
  = Some (PDict (dict items), rest).
Proof.
  intros Hs. destruct items as [|kv kvs]; [reflexivity|].
  assert (Hlen : length (kv :: kvs) <=
                 length (join (str ", ") (map dumps_item (kv :: kvs))
                         ++ 125%N :: rest)).
  { rewrite length_app.
    pose proof (@join_length (str ", ") (map dumps_item (kv :: kvs))) as K.
    rewrite length_map in K.
    assert (Forall (fun p => 1 <= length p) (map dumps_item (kv :: kvs))).
    { apply Forall_map, Forall_forall. intros [k v] _.
      unfold dumps_item, encode_basestring_ascii. simpl. lia. }
    specialize (K H). lia. }
  pose proof (@object_pairs_dumps scan kvs kv _ rest Hs Hlen) as K.
  destruct (join_item_head (str ", ") kv (map dumps_item kvs)
              (125%N :: rest)) as [t E].
  change (dumps_item kv :: map dumps_item kvs)
    with (map dumps_item (kv :: kvs)) in E.
  unfold JSONObject. rewrite E in K |- *. simpl tl in K.
  rewrite skip_ws_keep by reflexivity.
  change ((34 =? 125)%N) with false. change ((34 =? 34)%N) with true.
  cbv iota. rewrite K. reflexivity.
Qed.

(** The decoder reads back any well-formed value the encoder wrote,
    whatever follows it. *)
Lemma scan_once_dumps (v : pyval) :
  wf_val v ->
  forall fuel rest,
    depth v <= fuel ->
    scan_once fuel (json_dumps v ++ rest) = Some (v, rest).
Proof.
  induction v as [s|l IH|items IH] using pyval_nested_ind;
    intros Hwf fuel rest Hf;
    (destruct fuel as [|n]; [simpl in Hf; lia|]).
  - simpl in Hwf. unfold json_dumps, encode_basestring_ascii.
    rewrite <- app_comm_cons, <- app_assoc. simpl app.
    change (scan_once (S n) (34%N :: ?r))
      with (match scanstring r with
            | Some (x, r') => Some (PStr x, r')
            | None => None
            end).
    rewrite scanstring_encode by exact Hwf. reflexivity.
  - rewrite json_dumps_list, <- app_comm_cons, <- app_assoc. simpl app.
    change (scan_once (S n) (91%N :: ?r)) with (JSONArray (scan_once n) r).
    apply JSONArray_dumps. intros y Hy r.
    apply wf_list in Hwf. rewrite Forall_forall in IH, Hwf.
    apply IH; [exact Hy | apply Hwf, Hy|].
    simpl in Hf. apply le_S_n in Hf.
    apply fold_max_le in Hf. rewrite Forall_forall in Hf. apply Hf, Hy.
  - rewrite json_dumps_dict, <- app_comm_cons, <- app_assoc. simpl app.
    change (scan_once (S n) (123%N :: ?r)) with (JSONObject (scan_once n) r).
    apply wf_dict in Hwf as [Hnd Hwf].
    rewrite JSONObject_dumps; [rewrite dict_nodup by exact Hnd; reflexivity|].
    intros p Hp. rewrite Forall_forall in IH, Hwf.
    destruct (Hwf p Hp) as [Hk Hv]. split; [exact Hk|].
    intros r. apply IH; [exact Hp | exact Hv|].
    simpl in Hf. apply le_S_n in Hf.
    apply (fold_max_le (fun kv => depth (snd kv))) in Hf.
    rewrite Forall_forall in Hf. apply Hf, Hp.
Qed.

Lemma join_part_length (sep : pystr) (parts : list pystr) (p : pystr) :
  In p parts -> length p <= length (join sep parts).
Proof.
  induction parts as [|q r IH]; intros H; [contradiction|].
  destruct r as [|q' r].
  - destruct H as [->|[]]. simpl. lia.
  - rewrite join_cons2, !length_app. destruct H as [->|H]; [lia|].
    specialize (IH H). lia.
Qed.

Lemma depth_le_length (v : pyval) : depth v <= length (json_dumps v).
Proof.
  induction v as [s|l IH|items IH] using pyval_nested_ind.
  - unfold json_dumps, encode_basestring_ascii. simpl. lia.
  - rewrite json_dumps_list. simpl depth. simpl length.
    apply le_n_S. rewrite length_app.
    apply fold_max_le, Forall_forall. intros x Hx.
    rewrite Forall_forall in IH. specialize (IH x Hx).
    pose proof (@join_part_length (str ", ") (map json_dumps l)
                  (json_dumps x) (in_map _ _ _ Hx)). lia.
  - rewrite json_dumps_dict. simpl depth. simpl length.
    apply le_n_S. rewrite length_app.
    apply (fold_max_le (fun kv => depth (snd kv))), Forall_forall.
    intros [k x] Hx.
    rewrite Forall_forall in IH. specialize (IH (k, x) Hx). simpl in IH |- *.
    pose proof (@join_part_length (str ", ") (map dumps_item items)
                  (dumps_item (k, x)) (in_map _ _ _ Hx)) as K.
    unfold dumps_item at 1 in K. simpl fst in K; simpl snd in K.
    rewrite !length_app in K. lia.
Qed.

(** [json.loads(json.dumps(v)) == v] *)
Lemma json_loads_dumps (v : pyval) :
  wf_val v -> json_loads (json_dumps v) = Some v.
Proof.
  intros H. unfold json_loads.
  rewrite <- (app_nil_r (json_dumps v)) at 2.
  rewrite skip_ws_dumps, scan_once_dumps; [reflexivity | exact H|].
  pose proof (depth_le_length v). lia.
Qed.

(** ** Surrogate pairs *)

Lemma escape_char_surrogate (c : N) :
  (0xd800 <= c <= 0xdfff)%N -> escape_char c = u_escape c.
Proof.
  intros H. unfold escape_char.
  repeat match goal with
         | |- context [N.eqb c ?k] =>
           destruct (N.eqb_spec c k); [lia|]
         end.
  destruct (N.leb_spec c 126); [lia|]. rewrite andb_false_r.
  destruct (N.ltb_spec c 0x10000); [reflexivity | lia].
Qed.

Lemma surrogate_ranges (c d : N) :
  is_high_surrogate c = true -> is_low_surrogate d = true ->
  (0xd800 <= c <= 0xdbff)%N /\ (0xdc00 <= d <= 0xdfff)%N.
Proof.
  unfold is_high_surrogate, is_low_surrogate. intros Hc Hd.
  apply andb_true_iff in Hc as [H1 H2]. apply andb_true_iff in Hd as [H3 H4].
  apply N.leb_le in H1, H2, H3, H4. lia.
Qed.

Lemma joined_value (c d : N) :
  is_high_surrogate c = true -> is_low_surrogate d = true ->
  (0x10000 + N.lor (N.shiftl (c - 0xd800) 10) (d - 0xdc00)
   = 0x10000 + ((c - 0xd800) * 1024 + (d - 0xdc00)))%N.
Proof.
  intros Hc Hd. destruct (@surrogate_ranges _ _ Hc Hd) as [H1 H2].
  rewrite N.shiftl_mul_pow2. change (2 ^ 10)%N with 1024%N.
  rewrite lor_shifted_low by lia. reflexivity.
Qed.

(** The encoder writes the joined character as the two surrogates. *)
Lemma escape_char_joined (c d : N) :
  is_high_surrogate c = true -> is_low_surrogate d = true ->
  escape_char (0x10000 + N.lor (N.shiftl (c - 0xd800) 10) (d - 0xdc00))%N
  = escape_char c ++ escape_char d.
Proof.
  intros Hc Hd. destruct (@surrogate_ranges _ _ Hc Hd) as [H1 H2].
  rewrite joined_value by assumption.
  rewrite (@escape_char_surrogate c), (@escape_char_surrogate d) by lia.
  assert (Hh : (c - 0xd800 < 1024)%N) by lia.
  assert (Hl : (d - 0xdc00 < 1024)%N) by lia.
  assert (Ec : c = (0xd800 + (c - 0xd800))%N) by lia.
  assert (Ed : d = (0xdc00 + (d - 0xdc00))%N) by lia.
  rewrite Ec at 2. rewrite Ed at 2. clear Ec Ed.
  revert Hh Hl. generalize (c - 0xd800)%N, (d - 0xdc00)%N. clear.
  intros h l Hh Hl.
  destruct (@surrogate_pair (0x10000 + (h * 1024 + l))%N ltac:(lia))
    as [E1 [E2 _]].
  replace (0x10000 + (h * 1024 + l) - 0x10000)%N with (h * 1024 + l)%N
    in E1, E2 by lia.
  assert (Q : ((h * 1024 + l) / 1024 = h)%N).
  { symmetry. apply (N.div_unique _ _ h l); [exact Hl | lia]. }
  assert (R : ((h * 1024 + l) mod 1024 = l)%N).
  { symmetry. apply (N.mod_unique _ _ h l); [exact Hl | lia]. }
  rewrite Q in E1. rewrite R in E2.
  unfold escape_char.
  repeat match goal with
         | |- context [N.eqb ?x ?k] =>
           destruct (N.eqb_spec x k); [lia|]
         end.
  destruct (N.leb_spec (0x10000 + (h * 1024 + l)) 126); [lia|].
  rewrite andb_false_r.
  destruct (N.ltb_spec (0x10000 + (h * 1024 + l)) 0x10000); [lia|].
  cbv zeta.
  replace (0x10000 + (h * 1024 + l) - 0x10000)%N with (h * 1024 + l)%N
    by lia.
  rewrite E1, E2. reflexivity.
Qed.

Lemma combine_surrogates_2 (c d : N) (r : pystr) :
  combine_surrogates (c :: d :: r) =
  if is_high_surrogate c && is_low_surrogate d then
    (0x10000 + N.lor (N.shiftl (c - 0xd800) 10) (d - 0xdc00))%N
    :: combine_surrogates r
  else c :: combine_surrogates (d :: r).
Proof. reflexivity. Qed.

(** Strings that differ by joined pairs only are written alike. *)
Lemma escape_combine_surrogates (n : nat) :
  forall s, length s <= n ->
    flat_map escape_char (combine_surrogates s) = flat_map escape_char s.
Proof.
  induction n as [|n IH]; intros s Hn.
  - destruct s; [reflexivity | simpl in Hn; lia].
  - destruct s as [|c [|d r]]; try reflexivity.
    rewrite combine_surrogates_2.
    destruct (is_high_surrogate c && is_low_surrogate d) eqn:E.
    + apply andb_true_iff in E as [Hc Hd].
      change (flat_map escape_char (c :: d :: r))
        with (escape_char c ++ escape_char d ++ flat_map escape_char r).
      rewrite app_assoc, <- escape_char_joined by assumption.
      simpl flat_map. rewrite IH; [reflexivity | simpl in Hn; lia].
    + change (escape_char c
              ++ flat_map escape_char (combine_surrogates (d :: r))
              = escape_char c ++ flat_map escape_char (d :: r)).
      rewrite IH by (simpl in Hn |- *; lia). reflexivity.
Qed.

Lemma encode_combine_surrogates (s : pystr) :
  encode_basestring_ascii (combine_surrogates s) = encode_basestring_ascii s.
Proof.
  unfold encode_basestring_ascii.
  rewrite (@escape_combine_surrogates (length s) s (le_n _)). reflexivity.
Qed.

Lemma is_low_joined (c d : N) :
  is_high_surrogate c = true -> is_low_surrogate d = true ->
  let j := (0x10000 + N.lor (N.shiftl (c - 0xd800) 10) (d - 0xdc00))%N in
  (j < 0x110000)%N /\ is_high_surrogate j = false /\
  is_low_surrogate j = false.
Proof.
  intros Hc Hd. destruct (@surrogate_ranges _ _ Hc Hd) as [H1 H2].
  cbv zeta. rewrite joined_value by assumption.
  unfold is_high_surrogate, is_low_surrogate.
  repeat split; [lia | |]; apply andb_false_iff; right; apply N.leb_gt; lia.
Qed.

Lemma combine_surrogates_head (s : pystr) :
  match combine_surrogates s with
  | [] => True
  | x :: _ =>
    is_low_surrogate x = true ->
    match s with
    | d :: _ => is_low_surrogate d = true
    | [] => False
    end
  end.
Proof.
  destruct s as [|c [|d r]]; [exact I | simpl; auto |].
  rewrite combine_surrogates_2.
  destruct (is_high_surrogate c && is_low_surrogate d) eqn:E; [|auto].
  apply andb_true_iff in E as [Hc Hd].
  destruct (@is_low_joined _ _ Hc Hd) as [_ [_ K]]. rewrite K. discriminate.
Qed.

Lemma text_ok_unfold (c : N) (r : pystr) :
  text_ok (c :: r) =
  (c <? 0x110000)%N
  && negb (is_high_surrogate c
           && match r with
              | d :: _ => is_low_surrogate d
              | [] => false
              end)
  && text_ok r.
Proof. reflexivity. Qed.

(** The decoder gives a combined string back as it is. *)
Lemma text_ok_combine_surrogates (n : nat) :
  forall s, length s <= n -> is_str s = true ->
    text_ok (combine_surrogates s) = true.
Proof.
  induction n as [|n IH]; intros s Hn Hs.
  - destruct s; [reflexivity | simpl in Hn; lia].
  - destruct s as [|c [|d r]]; [reflexivity | |].
    + simpl in Hs |- *. rewrite andb_true_r in Hs. rewrite Hs.
      rewrite andb_false_r. reflexivity.
    + assert (Hs' := Hs). simpl in Hs'.
      apply andb_true_iff in Hs' as [Vc Hs'].
      assert (Hs'' := Hs'). apply andb_true_iff in Hs'' as [Vd Vr].
      rewrite combine_surrogates_2.
      destruct (is_high_surrogate c && is_low_surrogate d) eqn:E.
      * apply andb_true_iff in E as [Hc Hd].
        destruct (@is_low_joined _ _ Hc Hd) as [K1 [K2 _]]. cbv zeta in *.
        rewrite text_ok_unfold, K2, (proj2 (N.ltb_lt _ _) K1).
        simpl andb. apply IH; [simpl in Hn; lia | exact Vr].
      * rewrite text_ok_unfold.
        rewrite Vc, IH by (simpl in Hn |- *; try lia; exact Hs').
        assert (K : is_high_surrogate c
                    && match combine_surrogates (d :: r) with
                       | x :: _ => is_low_surrogate x
                       | [] => false
                       end = false).
        { pose proof (combine_surrogates_head (d :: r)) as K.
          destruct (combine_surrogates (d :: r)) as [|x t];
            [apply andb_false_r|].
          destruct (is_low_surrogate x) eqn:Lx; [|apply andb_false_r].
          rewrite (K eq_refl) in E. exact E. }
        rewrite K. reflexivity.
Qed.

Lemma text_ok_is_str (s : pystr) : text_ok s = true -> is_str s = true.
Proof.
  induction s as [|c r IH]; [reflexivity|].
  intros H. apply text_ok_cons in H as [Hc [_ Hr]].
  simpl. rewrite (proj2 (N.ltb_lt _ _) Hc), IH by exact Hr. reflexivity.
Qed.

(** A string without a surrogate pair is unchanged. *)
Lemma combine_surrogates_id (s : pystr) :
  text_ok s = true -> combine_surrogates s = s.
Proof.
  induction s as [|c r IH]; [reflexivity|].
  intros H. apply text_ok_cons in H as [_ [Hh Hr]].
  destruct r as [|d r']; [reflexivity|].
  rewrite combine_surrogates_2.
  destruct (is_high_surrogate c); simpl andb.
  - rewrite (Hh eq_refl). rewrite IH by exact Hr. reflexivity.
  - rewrite IH by exact Hr. reflexivity.
Qed.

Lemma is_str_strip (t : pystr) : is_str t = true -> is_str (strip t) = true.
Proof.
  destruct (strip_split t) as [lead [trail [E _]]]. intros H.
  rewrite E in H. unfold is_str in *. rewrite !forallb_app in H.
  apply andb_true_iff in H as [_ H]. apply andb_true_iff in H as [H _].
  exact H.
Qed.

Lemma universal_newlines_unfold (c : N) (r : pystr) :
  universal_newlines (c :: r) =
  if (c =? 13)%N then
    match r with
    | [] => [10%N]
    | d :: r' =>
      if (d =? 10)%N then 10%N :: universal_newlines r'
      else 10%N :: universal_newlines r
    end
  else c :: universal_newlines r.
Proof. reflexivity. Qed.

Lemma is_str_cons (c : N) (r : pystr) :
  is_str (c :: r) = (c <? 0x110000)%N && is_str r.
Proof. reflexivity. Qed.

Lemma is_str_universal_newlines (n : nat) :
  forall s, length s <= n -> is_str s = true ->
    is_str (universal_newlines s) = true.
Proof.
  induction n as [|n IH]; intros s Hn Hs.
  - destruct s; [reflexivity | simpl in Hn; lia].
  - destruct s as [|c r]; [reflexivity|].
    assert (Hr : is_str r = true).
    { rewrite is_str_cons in Hs. apply andb_true_iff in Hs. tauto. }
    assert (Hc : (c <? 0x110000)%N = true).
    { rewrite is_str_cons in Hs. apply andb_true_iff in Hs. tauto. }
    rewrite universal_newlines_unfold. destruct (c =? 13)%N.
    + destruct r as [|d r']; [reflexivity|].
      destruct (d =? 10)%N; rewrite is_str_cons;
        change ((10 <? 0x110000)%N) with true; rewrite andb_true_l.
      * rewrite is_str_cons in Hr. apply andb_true_iff in Hr as [_ Hr].
        apply IH; [simpl in Hn; lia | exact Hr].
      * apply IH; [simpl in Hn |- *; lia | exact Hr].
    + rewrite is_str_cons, Hc, andb_true_l.
      apply IH; [simpl in Hn; lia | exact Hr].
Qed.

(** ** The lines of the output *)

Lemma wf_data_entry (p q r : pystr) :
  text_ok p = true -> text_ok q = true -> text_ok r = true ->
  wf_val (data_entry p q r).
Proof.
  intros Hp Hq Hr.
  assert (K : forall a b,
            text_ok a = true -> text_ok b = true -> wf_val (message a b)).
  { intros a b Ha Hb. unfold message. apply wf_dict. split.
    - simpl map. apply NoDup_cons.
      + intros [H|[]]. vm_compute in H. discriminate H.
      + apply NoDup_cons; [intros [] | apply NoDup_nil].
    - apply Forall_cons; [split; [reflexivity | exact Ha]|].
      apply Forall_cons; [split; [reflexivity | exact Hb]|].
      apply Forall_nil. }
  unfold data_entry. apply wf_dict. split.
  - simpl map. apply NoDup_cons; [intros [] | apply NoDup_nil].
  - apply Forall_cons; [|apply Forall_nil]. split; [reflexivity|].
    simpl snd. apply wf_list.
    repeat (apply Forall_cons; [apply K; try assumption; reflexivity|]).
    apply Forall_nil.
Qed.

Lemma json_dumps_data_entry_combine (p q r : pystr) :
  json_dumps (data_entry (combine_surrogates p) (combine_surrogates q)
                (combine_surrogates r))
  = json_dumps (data_entry p q r).
Proof.
  unfold data_entry, message. cbn [json_dumps map fst snd].
  rewrite !encode_combine_surrogates. reflexivity.
Qed.

(** A record read back from its line: the same three messages, each string
    with its surrogate pairs joined; and written again, the same line. *)
Lemma data_entry_round_trip (p q r : pystr) :
  is_str p = true -> is_str q = true -> is_str r = true ->
  json_loads (json_dumps (data_entry p q r))
  = Some (data_entry (combine_surrogates p) (combine_surrogates q)
            (combine_surrogates r)).
Proof.
  intros Hp Hq Hr. rewrite <- json_dumps_data_entry_combine.
  apply json_loads_dumps, wf_data_entry;
    eapply text_ok_combine_surrogates; eauto.
Qed.

Lemma lines_of_line (l r : pystr) :
  ~ In 10%N l -> lines_of (l ++ 10%N :: r) = l :: lines_of r.
Proof.
  induction l as [|c l IH]; intros H; [reflexivity|].
  simpl in H. rewrite <- app_comm_cons.
  change (lines_of (c :: ?t))
    with (if (c =? 10)%N then [] :: lines_of t
          else match t with
               | [] => [[c]]
               | _ :: _ =>
                 match lines_of t with
                 | [] => [[c]]
                 | x :: ls => (c :: x) :: ls
                 end
               end).
  destruct (N.eqb_spec c 10) as [->|_]; [tauto|].
  rewrite IH by tauto. destruct l; reflexivity.
Qed.

Lemma json_dumps_one_line (v : pyval) : ~ In 10%N (json_dumps v).
Proof.
  intros H. pose proof (json_dumps_printable v) as P.
  rewrite Forall_forall in P. specialize (P _ H). unfold printable in P. lia.
Qed.

(** Every record takes one line of the output. *)
Lemma lines_of_dataset (entries : list pyval) :
  lines_of (flat_map (fun e => json_dumps e ++ [10%N]) entries)
  = map json_dumps entries.
Proof.
  induction entries as [|e r IH]; [reflexivity|].
  simpl flat_map. rewrite <- app_assoc. simpl app.
  rewrite lines_of_line by apply json_dumps_one_line.
  rewrite IH. reflexivity.
Qed.

Lemma entries_from_length (w : World) (persona data_dir : pystr)
  (names : list pystr) :
  forall k entries,
    entries_from w persona data_dir k names entries ->
    length entries = length names.
Proof.
  induction names as [|f fs IH]; intros k [|e es] H;
    simpl in *; try contradiction; [reflexivity|].
  f_equal. destruct H as [_ H]. eapply IH, H.
Qed.

Lemma entries_from_In (w : World) (persona data_dir : pystr)
  (names : list pystr) :
  forall k entries e,
    entries_from w persona data_dir k names entries -> In e entries ->
    exists f i, In f names /\ entry_for w persona data_dir i f e.
Proof.
  induction names as [|f fs IH]; intros k [|e0 es] e H He;
    simpl in *; try contradiction.
  destruct H as [H0 H]. destruct He as [<-|He].
  - exists f, k; auto.
  - destruct (IH _ _ _ H He) as [g [i [Hg Hi]]]. exists g, i; auto.
Qed.

Lemma main_ok_inv (w : World) (persona data_dir output_file : pystr)
  (st : State) :
  main w persona data_dir output_file initial = (inr tt, st) ->
  client_ok w = true /\ open_write w output_file = true /\
  exists entries st',
    generate_training_data w persona data_dir initial = (inr entries, st') /\
    trace st = trace st' /\
    written st = Some (flat_map (fun e => json_dumps e ++ [10%N]) entries).
Proof.
  rewrite main_run. destruct (client_ok w); [|discriminate].
  destruct (generate_training_data w persona data_dir initial)
    as [[e|entries] st']; [discriminate|].
  destruct (open_write w output_file); [|discriminate].
  intros H; inversion H; subst. repeat split; auto.
  exists entries, st'; auto.
Qed.

(** C3: a run that meets no failure writes one line per qualifying name:
    the lines of the output file are the serialized records, as many as
    there are names ending in ".txt" in the listing, and the record on the
    k-th line is the record of the k-th such name in the order of the
    listing.  And the run does meet no failure whenever the client can be
    built, every qualifying file is read and answered and the output file
    can be opened. *)
Theorem one_line_per_txt_file
  (w : World) (persona data_dir output_file : pystr) (names : list pystr) :
  listdir w data_dir = Some names ->
  (forall st,
     main w persona data_dir output_file initial = (inr tt, st) ->
     exists entries content,
       written st = Some content /\
       content = flat_map (fun e => json_dumps e ++ [10%N]) entries /\
       lines_of content = map json_dumps entries /\
       length (lines_of content) = length (filter is_txt names) /\
       entries_from w persona data_dir 0 (filter is_txt names) entries) /\
  (forall entries,
     client_ok w = true -> open_write w output_file = true ->
     entries_from w persona data_dir 0 (filter is_txt names) entries ->
     exists st,
       main w persona data_dir output_file initial = (inr tt, st) /\
       written st =
         Some (flat_map (fun e => json_dumps e ++ [10%N]) entries)).
Proof.
  intros Hl. split.
  - intros st H. apply main_ok_inv in H
      as [_ [_ [entries [st' [G [_ Hw]]]]]].
    rewrite generate_training_data_run, Hl in G.
    apply process_filenames_ok in G as [new [-> Hn]]. simpl app in *.
    exists new. eexists. split; [exact Hw|]. split; [reflexivity|].
    split; [apply lines_of_dataset|]. split; [|exact Hn].
    rewrite lines_of_dataset, length_map.
    eapply entries_from_length, Hn.
  - intros entries Hc Ho He.
    destruct (@process_filenames_complete w persona data_dir names []
                (logged (Listdir data_dir) initial) entries He) as [st' E].
    rewrite main_run, Hc, generate_training_data_run, Hl, E, Ho.
    eexists; split; reflexivity.
Qed.

Lemma one_line_per_txt_file_witness :
  exists st,
    main demo_world Bob (str "data") (str "out.jsonl") initial = (inr tt, st) /\
    written st =
      Some (flat_map (fun e => json_dumps e ++ [10%N])
              [data_entry Bob (str "What should I say?") (str "Hello world")]).
Proof.
  apply (proj2 (@one_line_per_txt_file demo_world Bob (str "data")
                  (str "out.jsonl") [str "a.txt"; str "b.md"] eq_refl));
    try reflexivity.
  simpl. split; [|exact I].
  exists (str "Hello world"), (str " What should I say? ").
  repeat split; reflexivity.
Defined.

(** C8: every line of the output file is a JSON document that parses to an
    object of the shape of a record (the key "messages" with a list of
    three objects, each with the keys "role" and "content", the roles
    being system, user, assistant), and serializing the parsed object
    gives the line again.  The parsed object is the record that was
    written, a high surrogate directly followed by a low one being read as
    the one character they stand for; it is that record unchanged when its
    strings have no such pair. *)
Theorem every_line_round_trips
  (w : World) (persona data_dir output_file : pystr) (st : State) :
  main w persona data_dir output_file initial = (inr tt, st) ->
  is_str persona = true ->
  (forall p text, file_text w p = Some text -> is_str text = true) ->
  (forall k req answer,
     chat_completion w k req = Content answer -> is_str answer = true) ->
  exists entries content,
    written st = Some content /\
    lines_of content = map json_dumps entries /\
    forall e, In e entries ->
      exists query response,
        e = data_entry persona query response /\
        let parsed :=
          data_entry (combine_surrogates persona) (combine_surrogates query)
            (combine_surrogates response) in
        json_loads (json_dumps e) = Some parsed /\
        messages_of parsed =
          Some [(str "system", combine_surrogates persona);
                (str "user", combine_surrogates query);
                (str "assistant", combine_surrogates response)] /\
        json_dumps parsed = json_dumps e /\
        (text_ok persona = true -> text_ok query = true ->
         text_ok response = true -> parsed = e).
Proof.
  intros H Hp Hf Hc.
  apply main_ok_inv in H as [_ [_ [entries [st' [G [_ Hw]]]]]].
  rewrite generate_training_data_run in G.
  destruct (listdir w data_dir) as [names|]; [|discriminate].
  apply process_filenames_ok in G as [new [-> Hn]]. simpl app in *.
  exists new. eexists. split; [exact Hw|].
  split; [apply lines_of_dataset|].
  intros e He.
  destruct (@entries_from_In _ _ _ _ _ _ _ Hn He)
    as [f [i [_ [text [answer [Ht [Ha ->]]]]]]].
  exists (strip answer), (universal_newlines text).
  split; [reflexivity|]. cbv zeta.
  assert (Hq : is_str (strip answer) = true)
    by (apply is_str_strip; eapply Hc, Ha).
  assert (Hr : is_str (universal_newlines text) = true)
    by (eapply is_str_universal_newlines; [apply le_n | eapply Hf, Ht]).
  split; [apply data_entry_round_trip; assumption|].
  split; [reflexivity|].
  split; [apply json_dumps_data_entry_combine|].
  intros K1 K2 K3. rewrite !combine_surrogates_id by assumption.
  reflexivity.
Qed.

Lemma every_line_round_trips_witness :
  exists entries content,
    written (snd (main demo_world Bob (str "data") (str "out.jsonl") initial))
      = Some content /\
    lines_of content = map json_dumps entries /\
    forall e, In e entries ->
      exists query response,
        e = data_entry Bob query response /\
        let parsed :=
          data_entry (combine_surrogates Bob) (combine_surrogates query)
            (combine_surrogates response) in
        json_loads (json_dumps e) = Some parsed /\
        messages_of parsed =
          Some [(str "system", combine_surrogates Bob);
                (str "user", combine_surrogates query);
                (str "assistant", combine_surrogates response)] /\
        json_dumps parsed = json_dumps e /\
        (text_ok Bob = true -> text_ok query = true ->
         text_ok response = true -> parsed = e).
Proof.
  apply (@every_line_round_trips demo_world Bob (str "data")
           (str "out.jsonl")
           (snd (main demo_world Bob (str "data") (str "out.jsonl") initial))).
  - reflexivity.
  - reflexivity.
  - intros p text H. simpl in H. unfold only_a_txt in H.
    destruct (pystr_eqb p (str "data/a.txt")); inversion H; reflexivity.
  - intros k req answer H. inversion H. reflexivity.
Defined.

(** The one case in which the parsed strings differ from the written
    ones: two surrogates written one after the other are read as one
    character, and both are serialized alike. *)
Example surrogate_pair_is_joined :
  json_loads (json_dumps (PStr [0xd83d; 0xde00]%N)) = Some (PStr [0x1f600%N])
  /\ json_dumps (PStr [0x1f600%N]) = json_dumps (PStr [0xd83d; 0xde00]%N).
Proof. split; vm_compute; reflexivity. Qed.

(* ================================================================== *)
(** * Further properties of the script *)

(** ** What a run does, step by step *)

Lemma process_filenames_events (w : World) (persona data_dir : pystr)
  (names : list pystr) :
  forall acc st r st',
    process_filenames w persona data_dir names acc st = (r, st') ->
    trace st' =
    trace st ++
    run_events w data_dir (calls_made (trace st)) (filter is_txt names).
Proof.
  induction names as [|f rest IH]; intros acc st r st' H.
  - inversion H; subst. simpl. rewrite app_nil_r. reflexivity.
  - simpl filter. destruct (is_txt f) eqn:Hf.
    + rewrite process_filenames_txt in H by exact Hf.
      rewrite process_text_file_run in H. simpl run_events.
      destruct (file_text w (os_path_join data_dir f)) as [text|].
      * cbv zeta in H |- *.
        destruct (chat_completion w _ _);
          try (inversion H; subst; simpl; rewrite <- app_assoc; reflexivity).
        apply IH in H. rewrite H. simpl trace.
        rewrite !calls_made_app. simpl.
        rewrite Nat.add_0_r, Nat.add_1_r, <- !app_assoc. reflexivity.
      * inversion H; subst. reflexivity.
    + rewrite process_filenames_other in H by exact Hf. eapply IH, H.
Qed.

(** X1: the effects of building the dataset, whatever its outcome: the
    directory is listed once, then each qualifying file is opened and,
    when it could be read, one call is made with its text, in the order of
    the listing, up to the first read that fails or the first call that
    brings no text. *)
Theorem run_leaves_this_trace
  (w : World) (persona data_dir : pystr) (names : list pystr)
  (r : error + list pyval) (st : State) :
  listdir w data_dir = Some names ->
  generate_training_data w persona data_dir initial = (r, st) ->
  trace st = Listdir data_dir :: run_events w data_dir 0 (filter is_txt names).
Proof.
  intros Hl H. rewrite generate_training_data_run, Hl in H.
  apply process_filenames_events in H. exact H.
Qed.

Lemma run_leaves_this_trace_witness :
  trace (snd (generate_training_data two_files_world Bob (str "data") initial))
  = Listdir (str "data")
    :: run_events two_files_world (str "data") 0
         (filter is_txt [str "a.txt"; str "b.md"; str "c.txt"]).
Proof.
  apply (@run_leaves_this_trace two_files_world Bob (str "data")
           [str "a.txt"; str "b.md"; str "c.txt"]
           (fst (generate_training_data two_files_world Bob (str "data")
                   initial))); reflexivity.
Defined.

Lemma run_events_counts (w : World) (data_dir : pystr) (names : list pystr) :
  forall k,
    calls_made (run_events w data_dir k names)
    <= reads_made (run_events w data_dir k names) /\
    reads_made (run_events w data_dir k names) <= length names.
Proof.
  unfold calls_made, reads_made.
  induction names as [|f rest IH]; intros k; simpl; [split; lia|].
  destruct (file_text w (os_path_join data_dir f)) as [text|];
    [|simpl; lia].
  destruct (chat_completion w k _); try (simpl; lia).
  destruct (IH (S k)) as [H1 H2]. simpl. lia.
Qed.

Lemma run_events_all (w : World) (persona data_dir : pystr)
  (names : list pystr) :
  forall k entries,
    entries_from w persona data_dir k names entries ->
    calls_made (run_events w data_dir k names) = length names /\
    reads_made (run_events w data_dir k names) = length names.
Proof.
  induction names as [|f rest IH]; intros k [|e es] H;
    simpl in H; try contradiction; [split; reflexivity|].
  destruct H as [[text [answer [Ht [Hc _]]]] H].
  simpl run_events. rewrite Ht. cbv zeta. rewrite Hc.
  destruct (IH _ _ H) as [H1 H2].
  unfold calls_made, reads_made in *. simpl. rewrite H1, H2. split; reflexivity.
Qed.

(** X2: no retry and no call without a read.  Whatever the outcome, the
    run makes at most one call per file it has opened and opens at most
    one file per qualifying name; when it succeeds it has opened every
    qualifying file once and made one call for each. *)
Theorem at_most_one_call_per_file
  (w : World) (persona data_dir : pystr) (names : list pystr)
  (r : error + list pyval) (st : State) :
  listdir w data_dir = Some names ->
  generate_training_data w persona data_dir initial = (r, st) ->
  calls_made (trace st) <= reads_made (trace st) /\
  reads_made (trace st) <= length (filter is_txt names) /\
  (forall entries, r = inr entries ->
     calls_made (trace st) = length (filter is_txt names) /\
     reads_made (trace st) = length (filter is_txt names) /\
     length entries = length (filter is_txt names)).
Proof.
  intros Hl H.
  assert (T := H). rewrite generate_training_data_run, Hl in T.
  apply process_filenames_events in T.
  change (trace st = Listdir data_dir
                     :: run_events w data_dir 0 (filter is_txt names)) in T.
  rewrite T.
  destruct (run_events_counts w data_dir (filter is_txt names) 0) as [H1 H2].
  change (calls_made (Listdir data_dir :: ?t)) with (calls_made t).
  change (reads_made (Listdir data_dir :: ?t)) with (reads_made t).
  split; [exact H1|]. split; [exact H2|].
  intros entries ->. rewrite generate_training_data_run, Hl in H.
  apply process_filenames_ok in H as [new [-> Hn]].
  change (entries_from w persona data_dir 0 (filter is_txt names) new) in Hn.
  destruct (@run_events_all _ _ _ _ _ _ Hn) as [K1 K2].
  rewrite K1, K2. repeat split. simpl.
  eapply entries_from_length, Hn.
Qed.

Lemma at_most_one_call_per_file_witness :
  calls_made
    (trace (snd (generate_training_data unreadable_world Bob (str "data")
                   initial)))
  <= reads_made
       (trace (snd (generate_training_data unreadable_world Bob (str "data")
                      initial))) /\
  reads_made
    (trace (snd (generate_training_data unreadable_world Bob (str "data")
                   initial)))
  <= length (filter is_txt [str "a.txt"; str "x.txt"; str "c.txt"]).
Proof.
  destruct (@at_most_one_call_per_file unreadable_world Bob (str "data")
              [str "a.txt"; str "x.txt"; str "c.txt"]
              (fst (generate_training_data unreadable_world Bob (str "data")
                      initial))
              (snd (generate_training_data unreadable_world Bob (str "data")
                      initial))
              eq_refl eq_refl) as [H1 [H2 _]].
  split; [exact H1 | exact H2].
Defined.

(** ** Edge cases of a run *)

(** X3: a directory without a qualifying name is no error: the run
    succeeds without opening a file or calling the service, and the output
    file is created and left empty. *)
Theorem no_qualifying_name_gives_empty_file
  (w : World) (persona data_dir output_file : pystr) (names : list pystr) :
  client_ok w = true ->
  listdir w data_dir = Some names ->
  filter is_txt names = [] ->
  open_write w output_file = true ->
  main w persona data_dir output_file initial =
    (inr tt, {| trace := [Listdir data_dir]; written := Some [] |}).
Proof.
  intros Hc Hl Hn Ho.
  rewrite main_run, Hc, generate_training_data_run, Hl.
  rewrite process_filenames_filter, Hn. simpl. rewrite Ho. reflexivity.
Qed.

Lemma no_qualifying_name_gives_empty_file_witness :
  main no_txt_world Bob (str "data") (str "out.jsonl") initial =
    (inr tt, {| trace := [Listdir (str "data")]; written := Some [] |}).
Proof.
  apply (@no_qualifying_name_gives_empty_file no_txt_world Bob (str "data")
           (str "out.jsonl") [str "b.md"; str "notes.TXT"; str "a.txt.bak"]);
    reflexivity.
Defined.

(** X4: the client is built before anything else.  When it cannot be
    built the run ends with the client's error and has touched nothing:
    the directory is not listed (so a missing directory goes unnoticed),
    no file is read, the output file is not opened. *)
Theorem client_failure_comes_first
  (w : World) (persona data_dir output_file : pystr) (st : State) :
  client_ok w = false ->
  main w persona data_dir output_file st = (inl ClientError, st).
Proof. intros H. rewrite main_run, H. reflexivity. Qed.

Lemma client_failure_comes_first_witness :
  main no_credentials_world Bob (str "data") (str "out.jsonl") initial
  = (inl ClientError, initial).
Proof.
  apply (@client_failure_comes_first no_credentials_world Bob (str "data")
           (str "out.jsonl") initial); reflexivity.
Defined.

(** X5: an answer without text ends the run at that file, after the one
    call made for it: a failed call with the service error, a message
    whose content is null with the error of calling [strip] on [None].
    Nothing is written. *)
Theorem answer_without_text_aborts
  (w : World) (persona data_dir output_file : pystr)
  (pre post : list pystr) (f text : pystr)
  (earlier : list pyval) (st1 : State) :
  client_ok w = true ->
  listdir w data_dir = Some (pre ++ f :: post) ->
  is_txt f = true ->
  process_filenames w persona data_dir pre []
    (logged (Listdir data_dir) initial) = (inr earlier, st1) ->
  file_text w (os_path_join data_dir f) = Some text ->
  let request := chat_request (universal_newlines text) in
  let st2 :=
    logged (ChatCompletion request)
      (logged (OpenRead (os_path_join data_dir f)) st1) in
  written st2 = None /\
  (chat_completion w (calls_made (trace st1)) request = ApiFailure ->
   main w persona data_dir output_file initial = (inl ServiceError, st2)) /\
  (chat_completion w (calls_made (trace st1)) request = NullContent ->
   main w persona data_dir output_file initial = (inl NullContentError, st2)).
Proof.
  intros Hc Hl Hf Hpre Ht request st2.
  assert (W : written st1 = None).
  { apply process_filenames_written in Hpre. exact Hpre. }
  split; [exact W|].
  split; intros Ha;
    rewrite main_run, Hc, generate_training_data_run, Hl;
    rewrite process_filenames_app, Hpre;
    rewrite process_filenames_txt by exact Hf;
    rewrite process_text_file_run, Ht; cbv zeta;
    fold request; rewrite Ha; reflexivity.
Qed.

Lemma answer_without_text_aborts_witness :
  main null_world Bob (str "data") (str "out.jsonl") initial
  = (inl NullContentError,
     logged (ChatCompletion (chat_request (str "Hello world")))
       (logged (OpenRead (str "data/a.txt"))
          (logged (Listdir (str "data")) initial))) /\
  main failing_service_world Bob (str "data") (str "out.jsonl") initial
  = (inl ServiceError,
     logged (ChatCompletion (chat_request (str "Hello world")))
       (logged (OpenRead (str "data/a.txt"))
          (logged (Listdir (str "data")) initial))).
Proof.
  split.
  - apply (proj2 (proj2
      (@answer_without_text_aborts null_world Bob (str "data")
         (str "out.jsonl") [] [str "c.txt"] (str "a.txt")
         (str "Hello world") []
         (logged (Listdir (str "data")) initial)
         eq_refl eq_refl eq_refl eq_refl eq_refl))).
    reflexivity.
  - apply (proj1 (proj2
      (@answer_without_text_aborts failing_service_world Bob (str "data")
         (str "out.jsonl") [] [str "c.txt"] (str "a.txt")
         (str "Hello world") []
         (logged (Listdir (str "data")) initial)
         eq_refl eq_refl eq_refl eq_refl eq_refl))).
    reflexivity.
Defined.

(** X6: the output file is opened only after the whole dataset has been
    built.  When it cannot be opened the run fails with the error of the
    output file, having read every qualifying file and made every call;
    the records are lost. *)
Theorem unwritable_output_fails_last
  (w : World) (persona data_dir output_file : pystr)
  (names : list pystr) (entries : list pyval) :
  client_ok w = true ->
  listdir w data_dir = Some names ->
  entries_from w persona data_dir 0 (filter is_txt names) entries ->
  open_write w output_file = false ->
  exists st,
    main w persona data_dir output_file initial
      = (inl (OutputOpenError output_file), st) /\
    calls_made (trace st) = length (filter is_txt names) /\
    reads_made (trace st) = length (filter is_txt names) /\
    written st = None.
Proof.
  intros Hc Hl He Ho.
  destruct (@process_filenames_complete w persona data_dir names []
              (logged (Listdir data_dir) initial) entries He) as [st E].
  exists st. rewrite main_run, Hc, generate_training_data_run, Hl, E, Ho.
  split; [reflexivity|].
  assert (T := E). apply process_filenames_events in T.
  change (trace st = Listdir data_dir
                     :: run_events w data_dir 0 (filter is_txt names)) in T.
  destruct (@run_events_all _ _ _ _ _ _ He) as [K1 K2].
  rewrite T.
  change (calls_made (Listdir data_dir :: ?t)) with (calls_made t).
  change (reads_made (Listdir data_dir :: ?t)) with (reads_made t).
  split; [exact K1|]. split; [exact K2|].
  apply process_filenames_written in E. exact E.
Qed.

Lemma unwritable_output_fails_last_witness :
  exists st,
    main readonly_world Bob (str "data") (str "out.jsonl") initial
      = (inl (OutputOpenError (str "out.jsonl")), st) /\
    calls_made (trace st)
      = length (filter is_txt [str "a.txt"; str "b.md"]) /\
    reads_made (trace st)
      = length (filter is_txt [str "a.txt"; str "b.md"]) /\
    written st = None.
Proof.
  apply (@unwritable_output_fails_last readonly_world Bob (str "data")
           (str "out.jsonl") [str "a.txt"; str "b.md"]
           [data_entry Bob (str "What should I say?") (str "Hello world")]);
    try reflexivity.
  simpl. split; [|exact I].
  exists (str "Hello world"), (str " What should I say? ").
  repeat split; reflexivity.
Defined.

(** X7: building the dataset never touches the output file: from any
    state and whatever the outcome, what has been written is what was
    written before, and the trace has only grown. *)
Theorem generate_training_data_writes_nothing
  (w : World) (persona data_dir : pystr) (st st' : State)
  (r : error + list pyval) :
  generate_training_data w persona data_dir st = (r, st') ->
  written st' = written st /\
  exists added, trace st' = trace st ++ added.
Proof.
  rewrite generate_training_data_run.
  destruct (listdir w data_dir) as [names|].
  - intros H. split.
    + apply process_filenames_written in H. exact H.
    + apply process_filenames_events in H. simpl in H.
      rewrite <- app_assoc in H. eexists; exact H.
  - intros H; inversion H; subst. split; [reflexivity|].
    eexists; reflexivity.
Qed.

Lemma generate_training_data_writes_nothing_witness :
  written (snd (generate_training_data demo_world Bob (str "data")
                  {| trace := [Listdir (str "other")];
                     written := Some (str "kept") |}))
    = Some (str "kept") /\
  exists added,
    trace (snd (generate_training_data demo_world Bob (str "data")
                  {| trace := [Listdir (str "other")];
                     written := Some (str "kept") |}))
    = [Listdir (str "other")] ++ added.
Proof.
  apply (@generate_training_data_writes_nothing demo_world Bob (str "data")
           {| trace := [Listdir (str "other")];
              written := Some (str "kept") |}
           (snd (generate_training_data demo_world Bob (str "data")
                   {| trace := [Listdir (str "other")];
                      written := Some (str "kept") |}))
           (fst (generate_training_data demo_world Bob (str "data")
                   {| trace := [Listdir (str "other")];
                      written := Some (str "kept") |}))).
  reflexivity.
Defined.

(** X8: the output file is plain ASCII, whatever the texts hold: every
    character written is a printable ASCII character or the newline that
    ends a line (all other characters are written as escapes), and a file
    that is not empty ends with a newline. *)
Theorem output_is_ascii_lines
  (w : World) (persona data_dir output_file : pystr) (st : State) :
  main w persona data_dir output_file initial = (inr tt, st) ->
  exists content,
    written st = Some content /\
    Forall (fun c => printable c \/ c = 10%N) content /\
    (content = [] \/ exists body, content = body ++ [10%N]).
Proof.
  intros H. apply main_ok_inv in H as [_ [_ [entries [st' [_ [_ Hw]]]]]].
  eexists. split; [exact Hw|]. clear. split.
  - induction entries as [|e r IH]; [constructor|].
    simpl. rewrite <- app_assoc. apply Forall_app. split.
    + eapply Forall_impl; [|apply json_dumps_printable]. intros c Hc; auto.
    + simpl. constructor; [right; reflexivity | exact IH].
  - induction entries as [|e r IH]; [left; reflexivity|right].
    simpl flat_map. destruct IH as [E|[body E]]; rewrite E.
    + rewrite app_nil_r. eexists; reflexivity.
    + exists ((json_dumps e ++ [10%N]) ++ body).
      rewrite <- !app_assoc. reflexivity.
Qed.

Lemma output_is_ascii_lines_witness :
  exists content,
    written (snd (main two_files_world Bob (str "data") (str "out.jsonl")
                    initial)) = Some content /\
    Forall (fun c => printable c \/ c = 10%N) content /\
    (content = [] \/ exists body, content = body ++ [10%N]).
Proof.
  apply (@output_is_ascii_lines two_files_world Bob (str "data")
           (str "out.jsonl")
           (snd (main two_files_world Bob (str "data") (str "out.jsonl")
                   initial))).
  reflexivity.
Defined.

(** ** Which names qualify *)

Lemma endswith_iff (s suffix : pystr) :
  endswith s suffix = true <-> exists stem, s = stem ++ suffix.
Proof.
  unfold endswith. split.
  - intros H. apply andb_true_iff in H as [_ H].
    apply pystr_eqb_eq in H.
    remember (length s - length suffix) as n eqn:En. clear En.
    exists (firstn n s). rewrite <- H. symmetry. apply firstn_skipn.
  - intros [stem ->]. apply andb_true_iff. split.
    + apply Nat.leb_le. rewrite length_app. lia.
    + apply pystr_eqb_eq. rewrite length_app.
      replace (length stem + length suffix - length suffix)
        with (length stem) by lia.
      rewrite skipn_app, skipn_all, Nat.sub_diag. reflexivity.
Qed.

(** X9: an entry of the directory qualifies exactly when its name is some
    stem, possibly empty, followed by ".txt" in lower case; nothing else
    about the entry is looked at. *)
Theorem txt_names_are_stem_dot_txt (filename : pystr) :
  is_txt filename = true <-> exists stem, filename = stem ++ str ".txt".
Proof. apply endswith_iff. Qed.

(** ** The persona *)

Lemma process_filenames_personas (w : World) (p1 p2 data_dir : pystr)
  (names : list pystr) :
  forall acc1 acc2 st r1 st1 r2 st2,
    Forall2 (same_but_persona p1 p2) acc1 acc2 ->
    process_filenames w p1 data_dir names acc1 st = (r1, st1) ->
    process_filenames w p2 data_dir names acc2 st = (r2, st2) ->
    st1 = st2 /\ same_outcome p1 p2 r1 r2.
Proof.
  induction names as [|f rest IH]; intros acc1 acc2 st r1 st1 r2 st2 Ha H1 H2.
  - inversion H1; inversion H2; subst. split; [reflexivity | exact Ha].
  - destruct (is_txt f) eqn:Hf.
    + rewrite process_filenames_txt in H1, H2 by exact Hf.
      rewrite process_text_file_run in H1, H2.
      destruct (file_text w (os_path_join data_dir f)) as [text|].
      * cbv zeta in H1, H2.
        destruct (chat_completion w _ _) as [| |answer].
        -- inversion H1; inversion H2; subst. split; reflexivity.
        -- inversion H1; inversion H2; subst. split; reflexivity.
        -- eapply IH; [|exact H1|exact H2].
           apply Forall2_app; [exact Ha|].
           constructor; [|constructor].
           exists (strip answer), (universal_newlines text). split; reflexivity.
      * inversion H1; inversion H2; subst. split; reflexivity.
    + rewrite process_filenames_other in H1, H2 by exact Hf.
      eapply IH; eauto.
Qed.

(** X10: the persona reaches the system messages and nothing else.  Under
    two personas the run reads the same files and sends the same requests
    (the persona is never sent to the service), ends in the same state,
    and either fails with the same error or builds records that differ by
    their system message only. *)
Theorem persona_only_sets_the_system_message
  (w : World) (p1 p2 data_dir : pystr)
  (r1 r2 : error + list pyval) (st1 st2 : State) :
  generate_training_data w p1 data_dir initial = (r1, st1) ->
  generate_training_data w p2 data_dir initial = (r2, st2) ->
  st1 = st2 /\ same_outcome p1 p2 r1 r2.
Proof.
  rewrite !generate_training_data_run.
  destruct (listdir w data_dir) as [names|].
  - apply process_filenames_personas. constructor.
  - intros H1 H2; inversion H1; inversion H2; subst. split; reflexivity.
Qed.

Lemma persona_only_sets_the_system_message_witness :
  snd (generate_training_data two_files_world Bob (str "data") initial)
  = snd (generate_training_data two_files_world (str "You are Ann.")
           (str "data") initial) /\
  same_outcome Bob (str "You are Ann.")
    (fst (generate_training_data two_files_world Bob (str "data") initial))
    (fst (generate_training_data two_files_world (str "You are Ann.")
            (str "data") initial)).
Proof.
  apply (@persona_only_sets_the_system_message two_files_world Bob
           (str "You are Ann.") (str "data")); reflexivity.
Defined.

(** ** Carriage returns *)

Lemma universal_newlines_no_cr (n : nat) :
  forall s, length s <= n -> ~ In 13%N (universal_newlines s).
Proof.
  induction n as [|n IH]; intros s Hn.
  - destruct s; [intros [] | simpl in Hn; lia].
  - destruct s as [|c r]; [intros []|].
    rewrite universal_newlines_unfold.
    destruct (N.eqb_spec c 13) as [->|Hc].
    + destruct r as [|d r']; [intros [H|[]]; discriminate H|].
      destruct (d =? 10)%N; intros [H|H]; try discriminate H;
        revert H; apply IH; simpl in Hn |- *; lia.
    + intros [H|H]; [congruence|].
      revert H; apply IH; simpl in Hn; lia.
Qed.

(** X11: no record holds a carriage return in its assistant message,
    whatever the line endings of the files: the text-mode read has turned
    each of them into a newline before the text is used, and reading the
    result again in the same way would change nothing. *)
Theorem assistant_text_has_no_carriage_return
  (w : World) (persona data_dir : pystr)
  (entries : list pyval) (st : State) :
  generate_training_data w persona data_dir initial = (inr entries, st) ->
  forall e, In e entries ->
    exists query response,
      e = data_entry persona query response /\
      ~ In 13%N response /\
      universal_newlines response = response.
Proof.
  intros H e He. rewrite generate_training_data_run in H.
  destruct (listdir w data_dir) as [names|]; [|discriminate].
  apply process_filenames_ok in H as [new [-> Hn]]. simpl app in He.
  destruct (@entries_from_In _ _ _ _ _ _ _ Hn He)
    as [f [i [_ [text [answer [_ [_ ->]]]]]]].
  exists (strip answer), (universal_newlines text).
  split; [reflexivity|].
  assert (K : ~ In 13%N (universal_newlines text))
    by (eapply universal_newlines_no_cr, le_n).
  split; [exact K | apply universal_newlines_id, K].
Qed.

Lemma assistant_text_has_no_carriage_return_witness :
  exists query response,
    data_entry Bob (str "Q") [97; 10; 98; 10]%N
      = data_entry Bob query response /\
    ~ In 13%N response /\
    universal_newlines response = response.
Proof.
  apply (@assistant_text_has_no_carriage_return crlf_world Bob (str "data")
           [data_entry Bob (str "Q") [97; 10; 98; 10]%N]
           (snd (generate_training_data crlf_world Bob (str "data")
                   initial))
           eq_refl
           (data_entry Bob (str "Q") [97; 10; 98; 10]%N)
           (or_introl eq_refl)).
Defined.

(** ** The paths that are opened *)

Lemma os_path_join_suffix (a p : pystr) :
  exists front, os_path_join a p = front ++ p.
Proof.
  unfold os_path_join.
  assert (K : exists front,
            match a with
            | [] => p
            | _ :: _ =>
              if endswith a (str "/") then a ++ p else a ++ str "/" ++ p
            end = front ++ p).
  { destruct a as [|x a']; [exists []; reflexivity|].
    destruct (endswith (x :: a') (str "/")).
    - exists (x :: a'); reflexivity.
    - exists ((x :: a') ++ str "/"). rewrite <- app_assoc. reflexivity. }
  destruct p as [|c p']; [exact K|].
  destruct (N.eqb_spec c 47) as [->|Hc].
  - exists []; reflexivity.
  - destruct c as [|q]; [exact K|].
    repeat (destruct q as [q|q|]; try exact K). congruence.
Qed.

(** X12: the run opens no file whose path does not end in ".txt": every
    path it opens is the path of a qualifying name of the listing, and
    joining the directory to a name keeps the end of the name. *)
Theorem only_txt_paths_are_opened
  (w : World) (persona data_dir : pystr) (names : list pystr)
  (r : error + list pyval) (st : State) :
  listdir w data_dir = Some names ->
  generate_training_data w persona data_dir initial = (r, st) ->
  forall p, In (OpenRead p) (trace st) ->
    endswith p (str ".txt") = true /\
    exists f, In f names /\ p = os_path_join data_dir f /\
              endswith p f = true.
Proof.
  intros Hl H p Hp. rewrite generate_training_data_run, Hl in H.
  destruct (@process_filenames_trace w persona data_dir names _ _ _ _ _ H Hp)
    as [K|[f [K1 [K2 [K|[text [_ K]]]]]]]; try discriminate K.
  - simpl in K. destruct K as [K|[]]. discriminate K.
  - inversion K; subst p. clear K.
    destruct (os_path_join_suffix data_dir f) as [front E].
    assert (Hf : endswith (os_path_join data_dir f) f = true)
      by (apply endswith_iff; exists front; exact E).
    split; [|exists f; auto].
    apply endswith_iff. apply endswith_iff in K2 as [stem K2].
    exists (front ++ stem). rewrite E, K2 at 1. apply app_assoc.
Qed.

Lemma only_txt_paths_are_opened_witness :
  endswith (str "data/c.txt") (str ".txt") = true /\
  exists f, In f [str "a.txt"; str "b.md"; str "c.txt"] /\
            str "data/c.txt" = os_path_join (str "data") f /\
            endswith (str "data/c.txt") f = true.
Proof.
  apply (@only_txt_paths_are_opened two_files_world Bob (str "data")
           [str "a.txt"; str "b.md"; str "c.txt"]
           (fst (generate_training_data two_files_world Bob (str "data")
                   initial))
           (snd (generate_training_data two_files_world Bob (str "data")
                   initial))
           eq_refl eq_refl (str "data/c.txt")).
  vm_compute. right; right; right; left; reflexivity.
Defined.

(** ** The order of the listing *)

Lemma Permutation_filter {A} (f : A -> bool) (l l' : list A) :
  Permutation l l' -> Permutation (filter f l) (filter f l').
Proof.
  induction 1 as [|x l l' _ IH|x y l|l l' l'' _ IH1 _ IH2]; simpl.
  - constructor.
  - destruct (f x); [constructor|]; exact IH.
  - destruct (f x), (f y); try apply Permutation_refl. apply perm_swap.
  - eapply Permutation_trans; eassumption.
Qed.

Lemma entries_from_Forall2 (w : World) (persona data_dir : pystr) :
  (forall k k' req, chat_completion w k req = chat_completion w k' req) ->
  forall names k entries,
    entries_from w persona data_dir k names entries <->
    Forall2 (entry_for w persona data_dir 0) names entries.
Proof.
  intros Hi.
  assert (E : forall k f e, entry_for w persona data_dir k f e <->
                            entry_for w persona data_dir 0 f e).
  { intros k f e. unfold entry_for.
    split; intros [text [answer [Ht [Hc He]]]]; exists text, answer;
      (split; [exact Ht|]); (split; [|exact He]).
    - rewrite (Hi 0 k). exact Hc.
    - rewrite (Hi k 0). exact Hc. }
  induction names as [|f fs IH]; intros k [|e es]; simpl.
  - split; constructor.
  - split; [contradiction | intros H; inversion H].
  - split; [contradiction | intros H; inversion H].
  - rewrite E, IH. split.
    + intros [H1 H2]; constructor; assumption.
    + intros H; inversion H; auto.
Qed.

(** X13: when the answers of the service do not depend on the number of
    the call, the order of the listing decides the order of the records
    and nothing else: had the directory been listed in another order, the
    run would have succeeded as well, with the same records in another
    order. *)
Theorem listing_order_only_orders_the_records
  (w : World) (persona data_dir : pystr) (names names' : list pystr)
  (entries : list pyval) (st : State) :
  (forall k k' req, chat_completion w k req = chat_completion w k' req) ->
  listdir w data_dir = Some names ->
  Permutation names names' ->
  generate_training_data w persona data_dir initial = (inr entries, st) ->
  exists entries' st',
    generate_training_data (relisted w data_dir names') persona data_dir
      initial = (inr entries', st') /\
    Permutation entries entries'.
Proof.
  intros Hi Hl Hp H. rewrite generate_training_data_run, Hl in H.
  apply process_filenames_ok in H as [new [-> Hn]]. simpl app.
  apply (@entries_from_Forall2 w persona data_dir Hi) in Hn.
  destruct (Permutation_Forall2 (@Permutation_filter _ is_txt _ _ Hp) Hn)
    as [entries' [P F]].
  apply (@entries_from_Forall2 w persona data_dir Hi _ 0) in F.
  destruct (@process_filenames_complete (relisted w data_dir names') persona
              data_dir names' []
              (logged (Listdir data_dir) initial) entries' F) as [st' E].
  exists entries', st'. split; [|exact P].
  rewrite generate_training_data_run. simpl listdir.
  rewrite pystr_eqb_refl. exact E.
Qed.

Lemma listing_order_only_orders_the_records_witness :
  exists entries' st',
    generate_training_data
      (relisted two_files_world (str "data")
         [str "c.txt"; str "a.txt"; str "b.md"])
      Bob (str "data") initial = (inr entries', st') /\
    Permutation
      [data_entry Bob (str "first") (str "first");
       data_entry Bob [233%N] [10; 233]%N]
      entries'.
Proof.
  apply (@listing_order_only_orders_the_records two_files_world Bob
           (str "data") [str "a.txt"; str "b.md"; str "c.txt"]
           [str "c.txt"; str "a.txt"; str "b.md"]
           [data_entry Bob (str "first") (str "first");
            data_entry Bob [233%N] [10; 233]%N]
           (snd (generate_training_data two_files_world Bob (str "data")
                   initial))).
  - intros k k' req. reflexivity.
  - reflexivity.
  - apply Permutation_sym.
    apply (@Permutation_cons_app _ [str "a.txt"; str "b.md"]
             [str "a.txt"; str "b.md"] [] (str "c.txt")).
    rewrite app_nil_r. apply Permutation_refl.
  - reflexivity.
Defined.
